(** * processtransformer/models/transformer.py

    The module builds three Keras models out of two custom layers
    ([TransformerBlock], [TokenAndPositionEmbedding]) and a handful of stock
    layers.  The Python is embedded function by function: [__init__] of a
    class makes a record of its sublayers, [call] is a function on tensors,
    a builder returns the graph it wires.

    The stock layers belong to the framework; they are described here by
    what they compute, as far as this module relies on it:
    - shapes are those of one example: the batch axis, which the framework
      maps over, is left out, so [layers.Input(shape=(n,))] has shape [[n]];
      the two functions of [TokenAndPositionEmbedding] and the element-wise
      layers are written for any rank all the same;
    - numbers are abstract: the arithmetic kernel is the class [Scalar],
      without laws, so what is proved holds whatever the kernel rounds to;
    - sizes are natural numbers, token ids are integers;
    - a layer called on a shape it does not accept, or an embedding lookup
      outside its table, raises; the framework's checks of hyperparameters
      at construction (some versions refuse some sizes of 0) are not
      described: the module does none of its own, and a builder that raises
      returns no model;
    - the variables of a layer (learned, set by the initializers and the
      optimizer) and the random masks of its dropouts are arguments of its
      [call]; a layer creates its variables on its first call, for the
      width of that input: [call] of a layer describes that call, and in a
      graph, whose layers are built at construction, every call is checked
      against the width the layer was built for;
    - a placeholder is float32: the values fed to a model are conformed to
      its placeholders and cast, so token ids reach the lookup through
      float32 and back to int32. *)

From Stdlib Require Import List ZArith QArith String Bool Arith Lia.
Import ListNotations.
Local Close Scope Q_scope.
Local Open Scope string_scope.
Local Open Scope list_scope.
Local Open Scope nat_scope.

(** ** Errors

    A framework exception is [None]; [x <- m ;; k] sequences two calls the way
    two Python statements do. *)

Definition bind {A B : Type} (m : option A) (k : A -> option B) : option B :=
  match m with
  | Some a => k a
  | None => None
  end.

Notation "x <- m ;; k" := (bind m (fun x => k))
  (at level 61, m at next level, right associativity).

Fixpoint sequence {A : Type} (l : list (option A)) : option (list A) :=
  match l with
  | [] => Some []
  | o :: l' => a <- o ;; r <- sequence l' ;; Some (a :: r)
  end.

(** ** Tensors

    A tensor is its shape together with its entries, read by multi-index. *)

Record tensor (A : Type) : Type := mkTensor {
  shape : list nat;
  data : list nat -> A
}.

Arguments mkTensor {A} _ _.
Arguments shape {A} _.
Arguments data {A} _ _.

(** The entries of a tensor of shape [sh] sit at [all_indices sh]. *)
Fixpoint all_indices (sh : list nat) : list (list nat) :=
  match sh with
  | [] => [[]]
  | n :: sh' => flat_map (fun i => map (cons i) (all_indices sh')) (seq 0 n)
  end.

Definition to_list {A : Type} (t : tensor A) : list A :=
  map (data t) (all_indices (shape t)).

(** A rank-1 tensor from a Python list. *)
Definition of_list {A : Type} (d : A) (l : list A) : tensor A :=
  {| shape := [List.length l]; data := fun ix => nth (hd 0 ix) l d |}.

Definition tmap {A B : Type} (f : A -> B) (t : tensor A) : tensor B :=
  {| shape := shape t; data := fun ix => f (data t ix) |}.

(** [tf.squeeze(t, axis=-1)] and [tf.expand_dims(t, axis=-1)] *)
Definition tsqueeze {A : Type} (t : tensor A) : tensor A :=
  {| shape := removelast (shape t); data := fun ix => data t (ix ++ [0]) |}.

Definition texpand {A : Type} (t : tensor A) : tensor A :=
  {| shape := shape t ++ [1]; data := fun ix => data t (removelast ix) |}.

(** The size of the last axis; a scalar has none. *)
Definition last_axis (sh : list nat) : option nat :=
  match rev sh with
  | [] => None
  | d :: _ => Some d
  end.

(** [tf.shape(x)[-1]] *)
Definition tf_shape_last {A : Type} (x : tensor A) : option nat :=
  last_axis (shape x).

(** [tf.range(start, limit, delta)] for a positive [delta]. *)
Definition tf_range (start limit delta : Z) : tensor Z :=
  {| shape := [Z.to_nat ((limit - start + delta - 1) / delta)];
     data := fun ix => (start + Z.of_nat (hd 0%nat ix) * delta)%Z |}.

(** *** Broadcasting

    Shapes are aligned from the last axis; two sizes agree when they are
    equal or one of them is 1. *)

Fixpoint bshape_rev (a b : list nat) : option (list nat) :=
  match a, b with
  | [], _ => Some b
  | _, [] => Some a
  | x :: a', y :: b' =>
      if x =? y then r <- bshape_rev a' b' ;; Some (x :: r)
      else if x =? 1 then r <- bshape_rev a' b' ;; Some (y :: r)
      else if y =? 1 then r <- bshape_rev a' b' ;; Some (x :: r)
      else None
  end.

Definition broadcast_shape (a b : list nat) : option (list nat) :=
  r <- bshape_rev (rev a) (rev b) ;; Some (rev r).

Fixpoint bindex_rev (sh ix : list nat) : list nat :=
  match sh, ix with
  | d :: sh', i :: ix' => (if d =? 1 then 0 else i) :: bindex_rev sh' ix'
  | _, _ => []
  end.

(** The index of an operand of shape [sh] that feeds entry [ix] of the
    broadcast result. *)
Definition bindex (sh ix : list nat) : list nat :=
  rev (bindex_rev (rev sh) (rev ix)).

(** *** Casts of whole numbers

    [tf.cast] of a whole number to float32 gives the nearest number with a
    significand of 24 bits, ties to even (ids are 64-bit integers at most,
    far from the largest float32).  The cast of a float32 to int32 is
    defined inside the range of int32; outside, the reference kernel yields
    the most negative int32, which no table holds: this is [None]. *)

Definition float32_of_Z (z : Z) : Z :=
  let a := Z.abs z in
  if (a <? 2 ^ 24)%Z then z
  else
    let ulp := (2 ^ (Z.log2 a - 23))%Z in
    let q := (a / ulp)%Z in
    let r := (a mod ulp)%Z in
    let q' :=
      if (2 * r <? ulp)%Z then q
      else if (ulp <? 2 * r)%Z then (q + 1)%Z
      else if Z.even q then q else (q + 1)%Z in
    (Z.sgn z * (q' * ulp))%Z.

Definition in_int32 (f : Z) : bool :=
  ((- 2 ^ 31 <=? f) && (f <? 2 ^ 31))%Z.

Definition int32_of_float32 (f : Z) : option Z :=
  if in_int32 f then Some f else None.

(** What the lookup sees of an id fed to a float32 placeholder. *)
Definition id_through_float32 (z : Z) : option Z :=
  int32_of_float32 (float32_of_Z z).

(** Whether the lookup finds an id fed to a float32 placeholder in a table
    of [vocab_size] rows. *)
Definition id_accepted (vocab_size : nat) (z : Z) : bool :=
  match id_through_float32 z with
  | Some k => ((0 <=? k) && (k <? Z.of_nat vocab_size))%Z
  | None => false
  end.

(** ** The arithmetic kernel

    [s_trunc] is the whole part of a number, as a cast to an integer type
    takes it. *)

Class Scalar : Type := {
  sc : Type;
  s0 : sc;
  sadd : sc -> sc -> sc;
  ssub : sc -> sc -> sc;
  smul : sc -> sc -> sc;
  sdiv : sc -> sc -> sc;
  smax : sc -> sc -> sc;
  sexp : sc -> sc;
  ssqrt : sc -> sc;
  s_of_Q : Q -> sc;
  s_trunc : sc -> Z
}.

Section Framework.

Context {K : Scalar}.

Definition s_of_nat (n : nat) : sc := s_of_Q (inject_Z (Z.of_nat n)).

Definition s_of_Z (z : Z) : sc := s_of_Q (inject_Z z).

(** Sum of [f 0 .. f (n-1)]. *)
Definition ssum (n : nat) (f : nat -> sc) : sc :=
  fold_right (fun i acc => sadd (f i) acc) s0 (seq 0 n).

(** The variables of one layer, by name and index; those of a sublayer held
    in attribute [a] are the names under [a/]. *)
Definition weights : Type := string -> list nat -> sc.

Definition scope (a : string) (w : weights) : weights :=
  fun n => w (String.append a (String.append "/" n)).

Fixpoint shape_eqb (a b : list nat) : bool :=
  match a, b with
  | [], [] => true
  | x :: a', y :: b' => (x =? y) && shape_eqb a' b'
  | _, _ => false
  end.

(** [a + b] on tensors. *)
Definition tf_add (a b : tensor sc) : option (tensor sc) :=
  sh <- broadcast_shape (shape a) (shape b) ;;
  Some {| shape := sh;
          data := fun ix => sadd (data a (bindex (shape a) ix))
                                 (data b (bindex (shape b) ix)) |}.

(** *** layers.Embedding *)

Record Embedding : Type := {
  input_dim : nat;
  output_dim : nat
}.

Definition in_table (n : nat) (z : Z) : bool :=
  ((0 <=? z) && (z <? Z.of_nat n))%Z.

Definition Embedding_shape (self : Embedding) (sh : list nat) : list nat :=
  sh ++ [output_dim self].

(** Row [data t ix] of the table for every entry of [t]; an index outside
    [0 .. input_dim - 1] raises (the bounds check of the reference kernel).
    The indices are the integers the layer looks up, after its cast to
    int32. *)
Definition Embedding_call (self : Embedding) (w : weights) (t : tensor Z)
  : option (tensor sc) :=
  if forallb (fun ix => in_table (input_dim self) (data t ix))
             (all_indices (shape t))
  then Some {| shape := Embedding_shape self (shape t);
               data := fun ix =>
                 w "embeddings"
                   [Z.to_nat (data t (removelast ix)); last ix 0] |}
  else None.

(** *** layers.Dense *)

Inductive activation_name : Type := relu | linear.

Record Dense : Type := {
  units : nat;
  activation : option activation_name
}.

Definition activations_get (a : option activation_name) : sc -> sc :=
  match a with
  | Some relu => fun x => smax x s0
  | Some linear => fun x => x
  | None => fun x => x
  end.

Definition Dense_shape (self : Dense) (sh : list nat) : option (list nat) :=
  _ <- last_axis sh ;; Some (removelast sh ++ [units self]).

(** [activation(dot(x, kernel) + bias)] along the last axis. *)
Definition Dense_call (self : Dense) (w : weights) (t : tensor sc)
  : option (tensor sc) :=
  sh <- Dense_shape self (shape t) ;;
  let d := last (shape t) 0 in
  Some {| shape := sh;
          data := fun ix =>
            activations_get (activation self)
              (sadd (ssum d (fun i => smul (data t (removelast ix ++ [i]))
                                        (w "kernel" [i; last ix 0])))
                    (w "bias" [last ix 0])) |}.

(** *** tf.keras.Sequential of dense layers

    The first layer's variables are under [layer/], those of the remaining
    ones under [rest/]. *)

Fixpoint Sequential_shape (ls : list Dense) (sh : list nat)
  : option (list nat) :=
  match ls with
  | [] => Some sh
  | l :: ls' => sh' <- Dense_shape l sh ;; Sequential_shape ls' sh'
  end.

Fixpoint Sequential_call (ls : list Dense) (w : weights) (t : tensor sc)
  : option (tensor sc) :=
  match ls with
  | [] => Some t
  | l :: ls' =>
      t' <- Dense_call l (scope "layer" w) t ;;
      Sequential_call ls' (scope "rest" w) t'
  end.

(** *** layers.Dropout

    [m ix] tells whether entry [ix] is kept by this pass's random mask. *)

Record Dropout : Type := {
  rate : Q
}.

Definition Dropout_call (self : Dropout) (m : list nat -> bool)
  (x : tensor sc) (training : bool) : tensor sc :=
  if training
  then {| shape := shape x;
          data := fun ix =>
            if m ix
            then smul (data x ix)
                      (sdiv (s_of_Q 1) (s_of_Q (1 - rate self)))
            else s0 |}
  else x.

(** *** layers.LayerNormalization (last axis) *)

Record LayerNormalization : Type := {
  epsilon : Q
}.

Definition LayerNormalization_shape (sh : list nat) : option (list nat) :=
  _ <- last_axis sh ;; Some sh.

Definition LayerNormalization_call (self : LayerNormalization) (w : weights)
  (t : tensor sc) : option (tensor sc) :=
  sh <- LayerNormalization_shape (shape t) ;;
  let d := last (shape t) 0 in
  Some {| shape := sh;
          data := fun ix =>
            let row i := data t (removelast ix ++ [i]) in
            let mean := sdiv (ssum d row) (s_of_nat d) in
            let var :=
              sdiv (ssum d (fun i => let c := ssub (row i) mean in smul c c))
                   (s_of_nat d) in
            sadd (smul (sdiv (ssub (data t ix) mean)
                             (ssqrt (sadd var (s_of_Q (epsilon self)))))
                       (w "gamma" [last ix 0]))
                 (w "beta" [last ix 0]) |}.

(** *** layers.MultiHeadAttention

    Called on a query and a value (the key is the value), each a sequence of
    vectors; the value dimension is the key dimension and the output has the
    width of the query.  The query is scaled by [1.0 / math.sqrt(key_dim)],
    a Python division that raises when [key_dim] is 0. *)

Record MultiHeadAttention : Type := {
  num_heads : nat;
  key_dim : nat
}.

Definition MultiHeadAttention_shape (q v : list nat) : option (list nat) :=
  match q, v with
  | [T; D], [_; _] => Some [T; D]
  | _, _ => None
  end.

Definition project (w : weights) (name : string) (t : tensor sc)
  (s h k : nat) : sc :=
  sadd (ssum (last (shape t) 0)
             (fun i => smul (data t [s; i])
                            (w (String.append name "/kernel") [i; h; k])))
       (w (String.append name "/bias") [h; k]).

Definition MultiHeadAttention_call (self : MultiHeadAttention) (w : weights)
  (query value : tensor sc) : option (tensor sc) :=
  sh <- MultiHeadAttention_shape (shape query) (shape value) ;;
  _ <- (if key_dim self =? 0 then None else Some tt) ;;
  let S := hd 0 (shape value) in
  let q t h k :=
    smul (project w "query" query t h k)
         (sdiv (s_of_Q 1) (ssqrt (s_of_nat (key_dim self)))) in
  let kk s h k := project w "key" value s h k in
  let v s h k := project w "value" value s h k in
  let score h t s := ssum (key_dim self) (fun k => smul (kk s h k) (q t h k)) in
  let prob h t s :=
    sdiv (sexp (score h t s)) (ssum S (fun s' => sexp (score h t s'))) in
  let ctx t h k := ssum S (fun s => smul (prob h t s) (v s h k)) in
  Some {| shape := sh;
          data := fun ix =>
            let t := nth 0 ix 0 in
            let o := nth 1 ix 0 in
            sadd (ssum (num_heads self) (fun h =>
                    ssum (key_dim self) (fun k =>
                      smul (ctx t h k)
                           (w "attention_output/kernel" [h; k; o]))))
                 (w "attention_output/bias" [o]) |}.

(** *** layers.GlobalAveragePooling1D: the mean over the sequence axis *)

Definition GlobalAveragePooling1D_shape (sh : list nat) : option (list nat) :=
  match sh with
  | [_; features] => Some [features]
  | _ => None
  end.

Definition GlobalAveragePooling1D_call (t : tensor sc) : option (tensor sc) :=
  sh <- GlobalAveragePooling1D_shape (shape t) ;;
  let steps := hd 0 (shape t) in
  Some {| shape := sh;
          data := fun ix =>
            sdiv (ssum steps (fun i => data t [i; hd 0 ix]))
                 (s_of_nat steps) |}.

(** *** layers.Concatenate (last axis) *)

Definition Concatenate_shape (shs : list (list nat)) : option (list nat) :=
  match shs with
  | [] => None
  | sh :: _ =>
      if forallb (fun u => negb (List.length u =? 0)
                           && shape_eqb (removelast u) (removelast sh)) shs
      then Some (removelast sh
                 ++ [fold_right (fun u n => last u 0 + n) 0 shs])
      else None
  end.

Fixpoint concat_data (ts : list (tensor sc)) (pre : list nat) (j : nat) : sc :=
  match ts with
  | [] => s0
  | t :: ts' =>
      let d := last (shape t) 0 in
      if j <? d then data t (pre ++ [j]) else concat_data ts' pre (j - d)
  end.

Definition Concatenate_call (ts : list (tensor sc)) : option (tensor sc) :=
  sh <- Concatenate_shape (map (@shape sc) ts) ;;
  Some {| shape := sh;
          data := fun ix => concat_data ts (removelast ix) (last ix 0) |}.

(** *** class TokenAndPositionEmbedding *)

Record TokenAndPositionEmbedding : Type := {
  token_emb : Embedding;
  pos_emb : Embedding
}.

Definition TokenAndPositionEmbedding_init (maxlen vocab_size embed_dim : nat)
  : TokenAndPositionEmbedding :=
  {| token_emb := {| input_dim := vocab_size; output_dim := embed_dim |};
     pos_emb := {| input_dim := maxlen; output_dim := embed_dim |} |}.

(** The position indices computed by the first two lines of [call]. *)
Definition TokenAndPositionEmbedding_positions (x : tensor Z)
  : option (tensor Z) :=
  maxlen <- tf_shape_last x ;;
  Some (tf_range 0 (Z.of_nat maxlen) 1).

(** The shape [call] produces, its statements traced on shapes alone. *)
Definition TokenAndPositionEmbedding_shape (self : TokenAndPositionEmbedding)
  (sh : list nat) : option (list nat) :=
  maxlen <- last_axis sh ;;
  broadcast_shape (Embedding_shape (token_emb self) sh)
                  (Embedding_shape (pos_emb self) [maxlen]).

Definition TokenAndPositionEmbedding_call (self : TokenAndPositionEmbedding)
  (w : weights) (x : tensor Z) : option (tensor sc) :=
  positions <- TokenAndPositionEmbedding_positions x ;;
  positions <- Embedding_call (pos_emb self) (scope "pos_emb" w) positions ;;
  x <- Embedding_call (token_emb self) (scope "token_emb" w) x ;;
  tf_add x positions.

(** *** class TransformerBlock *)

Record TransformerBlock : Type := {
  att : MultiHeadAttention;
  ffn : list Dense;
  layernorm_a : LayerNormalization;
  layernorm_b : LayerNormalization;
  dropout_a : Dropout;
  dropout_b : Dropout
}.

(** The default of [rate] in [TransformerBlock.__init__]. *)
Definition default_rate : Q := 0.1%Q.

Definition TransformerBlock_init (embed_dim num_heads ff_dim : nat) (rate : Q)
  : TransformerBlock :=
  {| att := {| num_heads := num_heads; key_dim := embed_dim |};
     ffn := [ {| units := ff_dim; activation := Some relu |};
              {| units := embed_dim; activation := None |} ];
     layernorm_a := {| epsilon := 1e-6%Q |};
     layernorm_b := {| epsilon := 1e-6%Q |};
     dropout_a := {| rate := rate |};
     dropout_b := {| rate := rate |} |}.

(** The random masks of one forward pass of a layer, by dropout attribute. *)
Definition noise : Type := string -> list nat -> bool.

Definition TransformerBlock_call (self : TransformerBlock) (w : weights)
  (m : noise) (inputs : tensor sc) (training : bool) : option (tensor sc) :=
  attn_output <-
    MultiHeadAttention_call (att self) (scope "att" w) inputs inputs ;;
  let attn_output :=
    Dropout_call (dropout_a self) (m "dropout_a") attn_output training in
  sum_a <- tf_add inputs attn_output ;;
  out_a <-
    LayerNormalization_call (layernorm_a self) (scope "layernorm_a" w) sum_a ;;
  ffn_output <- Sequential_call (ffn self) (scope "ffn" w) out_a ;;
  let ffn_output :=
    Dropout_call (dropout_b self) (m "dropout_b") ffn_output training in
  sum_b <- tf_add out_a ffn_output ;;
  LayerNormalization_call (layernorm_b self) (scope "layernorm_b" w) sum_b.

(** The shape [call] produces, its statements traced on shapes alone. *)
Definition TransformerBlock_shape (self : TransformerBlock) (sh : list nat)
  : option (list nat) :=
  attn_output <- MultiHeadAttention_shape sh sh ;;
  sum_a <- broadcast_shape sh attn_output ;;
  out_a <- LayerNormalization_shape sum_a ;;
  ffn_output <- Sequential_shape (ffn self) out_a ;;
  sum_b <- broadcast_shape out_a ffn_output ;;
  LayerNormalization_shape sum_b.

(** The transformer block as the specification words it, step by step.
    This definition follows the prose, not the Python; the two are compared
    below. *)
Definition spec_six_steps (embed_dim num_heads ff_dim : nat) (rate : Q)
  (w : weights) (m : noise) (x : tensor sc) (training : bool)
  : option (tensor sc) :=
  (* 1: multi-head self-attention, key dimension embed_dim *)
  a <- MultiHeadAttention_call
         {| num_heads := num_heads; key_dim := embed_dim |}
         (scope "att" w) x x ;;
  (* 2: dropout on the attention output *)
  let a := Dropout_call {| rate := rate |} (m "dropout_a") a training in
  (* 3: residual add to the block input, layer normalization *)
  r <- tf_add x a ;;
  n <- LayerNormalization_call {| epsilon := 1e-6%Q |}
         (scope "layernorm_a" w) r ;;
  (* 4: dense to ff_dim with relu, dense back to embed_dim *)
  h <- Dense_call {| units := ff_dim; activation := Some relu |}
         (scope "layer" (scope "ffn" w)) n ;;
  f <- Dense_call {| units := embed_dim; activation := None |}
         (scope "layer" (scope "rest" (scope "ffn" w))) h ;;
  (* 5: dropout *)
  let f := Dropout_call {| rate := rate |} (m "dropout_b") f training in
  (* 6: residual add to the normalized value, second layer normalization *)
  r <- tf_add n f ;;
  LayerNormalization_call {| epsilon := 1e-6%Q |} (scope "layernorm_b" w) r.

(** ** Model graphs

    The functional API builds a graph: a symbolic tensor is a placeholder
    made by [layers.Input], tagged here with the Python variable that holds
    it, or the result of calling a layer instance on symbolic tensors. *)

Inductive layer : Type :=
| L_TokenAndPositionEmbedding (l : TokenAndPositionEmbedding)
| L_TransformerBlock (l : TransformerBlock)
| L_GlobalAveragePooling1D
| L_Dropout (l : Dropout)
| L_Dense (l : Dense)
| L_Concatenate.

#[local] Unset Elimination Schemes.
Inductive ktensor : Type :=
| Input (tag : string) (sh : list nat)
| Call (l : layer) (args : list ktensor).
#[local] Set Elimination Schemes.

(** Induction over a graph, with the hypothesis for every argument of a
    call. *)
Section ktensor_induction.

Variable P : ktensor -> Prop.
Hypothesis P_Input : forall tag sh, P (Input tag sh).
Hypothesis P_Call : forall l args, Forall P args -> P (Call l args).

Fixpoint ktensor_ind (t : ktensor) : P t :=
  match t with
  | Input tag sh => P_Input tag sh
  | Call l args =>
      P_Call l args
        ((fix all (args : list ktensor) : Forall P args :=
            match args with
            | [] => Forall_nil P
            | a :: rest => @Forall_cons _ P a rest (ktensor_ind a) (all rest)
            end) args)
  end.

End ktensor_induction.

(** [tf.keras.Model(inputs=..., outputs=..., name=...)] *)
Record Model : Type := {
  inputs : list ktensor;
  outputs : ktensor;
  name : string
}.

(** *** The three builders *)

Definition get_next_activity_model
  (max_case_length vocab_size output_dim embed_dim num_heads ff_dim : nat)
  : Model :=
  let inputs := Input "inputs" [max_case_length] in
  let x := Call (L_TokenAndPositionEmbedding
                   (TokenAndPositionEmbedding_init
                      max_case_length vocab_size embed_dim)) [inputs] in
  let x := Call (L_TransformerBlock
                   (TransformerBlock_init
                      embed_dim num_heads ff_dim default_rate)) [x] in
  let x := Call L_GlobalAveragePooling1D [x] in
  let x := Call (L_Dropout {| rate := 0.1%Q |}) [x] in
  let x := Call (L_Dense {| units := 64; activation := Some relu |}) [x] in
  let x := Call (L_Dropout {| rate := 0.1%Q |}) [x] in
  let outputs :=
    Call (L_Dense {| units := output_dim; activation := Some linear |}) [x] in
  {| inputs := [inputs]; outputs := outputs;
     name := "next_activity_transformer" |}.

Definition get_next_time_model
  (max_case_length vocab_size output_dim embed_dim num_heads ff_dim : nat)
  : Model :=
  let inputs := Input "inputs" [max_case_length] in
  let time_inputs := Input "time_inputs" [3] in
  let x := Call (L_TokenAndPositionEmbedding
                   (TokenAndPositionEmbedding_init
                      max_case_length vocab_size embed_dim)) [inputs] in
  let x := Call (L_TransformerBlock
                   (TransformerBlock_init
                      embed_dim num_heads ff_dim default_rate)) [x] in
  let x := Call L_GlobalAveragePooling1D [x] in
  let x_t :=
    Call (L_Dense {| units := 32; activation := Some relu |}) [time_inputs] in
  let x := Call L_Concatenate [x; x_t] in
  let x := Call (L_Dropout {| rate := 0.1%Q |}) [x] in
  let x := Call (L_Dense {| units := 128; activation := Some relu |}) [x] in
  let x := Call (L_Dropout {| rate := 0.1%Q |}) [x] in
  let outputs :=
    Call (L_Dense {| units := output_dim; activation := Some linear |}) [x] in
  {| inputs := [inputs; time_inputs]; outputs := outputs;
     name := "next_time_transformer" |}.

Definition get_remaining_time_model
  (max_case_length vocab_size output_dim embed_dim num_heads ff_dim : nat)
  : Model :=
  let inputs := Input "inputs" [max_case_length] in
  let time_inputs := Input "time_inputs" [3] in
  let x := Call (L_TokenAndPositionEmbedding
                   (TokenAndPositionEmbedding_init
                      max_case_length vocab_size embed_dim)) [inputs] in
  let x := Call (L_TransformerBlock
                   (TransformerBlock_init
                      embed_dim num_heads ff_dim default_rate)) [x] in
  let x := Call L_GlobalAveragePooling1D [x] in
  let x_t :=
    Call (L_Dense {| units := 32; activation := Some relu |}) [time_inputs] in
  let x := Call L_Concatenate [x; x_t] in
  let x := Call (L_Dropout {| rate := 0.1%Q |}) [x] in
  let x := Call (L_Dense {| units := 128; activation := Some relu |}) [x] in
  let x := Call (L_Dropout {| rate := 0.1%Q |}) [x] in
  let outputs :=
    Call (L_Dense {| units := output_dim; activation := Some linear |}) [x] in
  {| inputs := [inputs; time_inputs]; outputs := outputs;
     name := "remaining_time_transformer" |}.

(** The builders called with their keyword arguments left out:
    [embed_dim = 36], [num_heads = 4], [ff_dim = 64] and, in the two time
    models, [output_dim = 1]. *)
Definition get_next_activity_model_defaults
  (max_case_length vocab_size output_dim : nat) : Model :=
  get_next_activity_model max_case_length vocab_size output_dim 36 4 64.

Definition get_next_time_model_defaults
  (max_case_length vocab_size : nat) : Model :=
  get_next_time_model max_case_length vocab_size 1 36 4 64.

Definition get_remaining_time_model_defaults
  (max_case_length vocab_size : nat) : Model :=
  get_remaining_time_model max_case_length vocab_size 1 36 4 64.

(** The pipeline as the specification words it: embed the sequence, one
    transformer block, global average pooling; then dropout(0.1),
    dense(hidden, relu), dropout(0.1), dense(output_dim, linear).  These
    definitions follow the prose, not the Python; the two are compared
    below. *)
Definition spec_pooled_sequence
  (max_case_length vocab_size embed_dim num_heads ff_dim : nat)
  (sequence_input : ktensor) : ktensor :=
  Call L_GlobalAveragePooling1D
    [Call (L_TransformerBlock
             (TransformerBlock_init embed_dim num_heads ff_dim 0.1%Q))
       [Call (L_TokenAndPositionEmbedding
                (TokenAndPositionEmbedding_init
                   max_case_length vocab_size embed_dim))
          [sequence_input]]].

Definition spec_head (hidden output_dim : nat) (x : ktensor) : ktensor :=
  Call (L_Dense {| units := output_dim; activation := Some linear |})
    [Call (L_Dropout {| rate := 0.1%Q |})
       [Call (L_Dense {| units := hidden; activation := Some relu |})
          [Call (L_Dropout {| rate := 0.1%Q |}) [x]]]].

Definition spec_with_time_features (pooled numeric_input : ktensor)
  : ktensor :=
  Call L_Concatenate
    [pooled;
     Call (L_Dense {| units := 32; activation := Some relu |})
       [numeric_input]].

(** *** Shapes at graph construction *)

Definition layer_shape (l : layer) (shs : list (list nat))
  : option (list nat) :=
  match l, shs with
  | L_TokenAndPositionEmbedding e, [sh] => TokenAndPositionEmbedding_shape e sh
  | L_TransformerBlock b, [sh] => TransformerBlock_shape b sh
  | L_GlobalAveragePooling1D, [sh] => GlobalAveragePooling1D_shape sh
  | L_Dropout _, [sh] => Some sh
  | L_Dense d, [sh] => Dense_shape d sh
  | L_Concatenate, _ => Concatenate_shape shs
  | _, _ => None
  end.

Fixpoint infer (t : ktensor) : option (list nat) :=
  match t with
  | Input _ sh => Some sh
  | Call l args =>
      shs <- (fix go (args : list ktensor) : option (list (list nat)) :=
                match args with
                | [] => Some []
                | a :: rest =>
                    sh <- infer a ;; shs <- go rest ;; Some (sh :: shs)
                end) args ;;
      layer_shape l shs
  end.

(** The shapes of the arguments of a call. *)
Fixpoint infer_args (args : list ktensor) : option (list (list nat)) :=
  match args with
  | [] => Some []
  | a :: rest => sh <- infer a ;; shs <- infer_args rest ;; Some (sh :: shs)
  end.

(** [model.input_shape] and [model.output_shape], without the batch axis. *)
Definition Model_input_shape (m : Model) : option (list (list nat)) :=
  sequence (map infer (inputs m)).

Definition Model_output_shape (m : Model) : option (list nat) :=
  infer (outputs m).

(** *** Running a graph

    A value fed to a graph is a tensor of whole numbers (token ids) or of
    numbers; what flows out of a placeholder is float32 in both cases, and
    a tensor of whole numbers then stands for the float32 tensor that holds
    them.  The variables and the masks of a layer instance are found by its
    place in the graph: the path of argument positions leading to it from
    the output, innermost first.  The [training] flag of the model call
    reaches every layer whose [call] takes one. *)

Inductive value : Type :=
| VInt (t : tensor Z)
| VReal (t : tensor sc).

Definition vshape (v : value) : list nat :=
  match v with
  | VInt t => shape t
  | VReal t => shape t
  end.

(** The numbers a layer computes with. *)
Definition as_real (v : value) : option (tensor sc) :=
  match v with
  | VReal t => Some t
  | VInt t => Some (tmap s_of_Z t)
  end.

(** The indices an embedding layer looks up: its input cast to int32. *)
Definition as_ids (v : value) : option (tensor Z) :=
  let t :=
    match v with
    | VInt t => t
    | VReal t => tmap s_trunc t
    end in
  if forallb (fun ix => in_int32 (data t ix)) (all_indices (shape t))
  then Some t
  else None.

(** **** Placeholders

    The model first checks each fed tensor against the shape of its
    placeholder: a last axis of size 1 is ignored on both sides, and the
    sizes are compared axis by axis as far as both shapes go.  It then
    conforms the tensor (a last axis of size 1 too many is squeezed, one
    missing is added) and casts it to float32. *)

Definition squeeze_last (sh : list nat) : list nat :=
  if last sh 0 =? 1 then removelast sh else sh.

Fixpoint dims_agree (a b : list nat) : bool :=
  match a, b with
  | x :: a', y :: b' => (x =? y) && dims_agree a' b'
  | _, _ => true
  end.

Definition input_compatible (sh fed : list nat) : bool :=
  dims_agree (squeeze_last sh) (squeeze_last fed).

Definition conform {A : Type} (sh : list nat) (t : tensor A) : tensor A :=
  if (List.length (shape t) =? List.length sh + 1) && (last (shape t) 0 =? 1)
  then tsqueeze t
  else if (List.length (shape t) + 1 =? List.length sh) && (last sh 0 =? 1)
  then texpand t
  else t.

Definition placeholder (sh : list nat) (v : value) : option value :=
  if input_compatible sh (vshape v)
  then Some match v with
            | VInt t => VInt (tmap float32_of_Z (conform sh t))
            | VReal t => VReal (conform sh t)
            end
  else None.

(** **** Layers

    A dense layer is built for the last axis of the input it was made on,
    the sublayers of a transformer block for its rank and last axis; a call
    on another width raises. *)

Definition built_for (l : layer) (built called : list (list nat)) : bool :=
  match l, built, called with
  | L_Dense _, [b], [c] =>
      match last_axis b, last_axis c with
      | Some x, Some y => x =? y
      | _, _ => false
      end
  | L_TransformerBlock _, [b], [c] =>
      (List.length b =? List.length c) && (last b 0 =? last c 0)
  | _, _, _ => true
  end.

Definition params : Type := list nat -> weights.
Definition noises : Type := list nat -> noise.

Definition layer_call (l : layer) (w : weights) (m : noise) (training : bool)
  (args : list value) : option value :=
  match l, args with
  | L_TokenAndPositionEmbedding e, [v] =>
      x <- as_ids v ;;
      r <- TokenAndPositionEmbedding_call e w x ;; Some (VReal r)
  | L_TransformerBlock b, [v] =>
      x <- as_real v ;;
      r <- TransformerBlock_call b w m x training ;; Some (VReal r)
  | L_GlobalAveragePooling1D, [v] =>
      x <- as_real v ;;
      r <- GlobalAveragePooling1D_call x ;; Some (VReal r)
  | L_Dropout d, [v] =>
      x <- as_real v ;;
      Some (VReal (Dropout_call d (m "") x training))
  | L_Dense d, [v] =>
      x <- as_real v ;; r <- Dense_call d w x ;; Some (VReal r)
  | L_Concatenate, _ =>
      ts <- sequence (map as_real args) ;;
      r <- Concatenate_call ts ;; Some (VReal r)
  | _, _ => None
  end.

Fixpoint eval (theta : params) (rho : noises) (training : bool)
  (env : string -> option value) (p : list nat) (t : ktensor)
  : option value :=
  match t with
  | Input tag sh => v <- env tag ;; placeholder sh v
  | Call l args =>
      vs <- (fix go (k : nat) (args : list ktensor) : option (list value) :=
               match args with
               | [] => Some []
               | a :: rest =>
                   v <- eval theta rho training env (k :: p) a ;;
                   vs <- go (S k) rest ;; Some (v :: vs)
               end) 0 args ;;
      built <- infer_args args ;;
      if built_for l built (map vshape vs)
      then layer_call l (theta p) (rho p) training vs
      else None
  end.

(** The arguments of a call, evaluated left to right from position [k]. *)
Fixpoint eval_args (theta : params) (rho : noises) (training : bool)
  (env : string -> option value) (p : list nat) (k : nat)
  (args : list ktensor) : option (list value) :=
  match args with
  | [] => Some []
  | a :: rest =>
      v <- eval theta rho training env (k :: p) a ;;
      vs <- eval_args theta rho training env p (S k) rest ;; Some (v :: vs)
  end.

(** The placeholders of a model bound, in order, to the values it is fed. *)
Fixpoint feed (ins : list ktensor) (xs : list value)
  : option (string -> option value) :=
  match ins, xs with
  | [], [] => Some (fun _ => None)
  | Input tag _ :: ins', v :: xs' =>
      env <- feed ins' xs' ;;
      Some (fun s => if String.eqb s tag then Some v else env s)
  | _, _ => None
  end.

(** [model(xs, training=training)] with variables [theta] and masks [rho]. *)
Definition Model_call (m : Model) (theta : params) (rho : noises)
  (xs : list value) (training : bool) : option value :=
  env <- feed (inputs m) xs ;;
  eval theta rho training env [] (outputs m).

(** A graph that was built with shape [sh] and, wherever it sits, evaluates
    to a tensor of numbers of that shape. *)
Definition runs_to (theta : params) (rho : noises) (training : bool)
  (env : string -> option value) (t : ktensor) (sh : list nat) : Prop :=
  infer t = Some sh
  /\ forall p, exists r,
       eval theta rho training env p t = Some (VReal r) /\ shape r = sh.

End Framework.

(** ** A rational kernel

    Used to run the layers on concrete inputs.  [exp] and [sqrt] are
    truncations (a Taylor polynomial, three Newton steps), as any machine
    kernel is an approximation. *)

Definition Qexp4 (x : Q) : Q :=
  Qred (1 + x + x * x / 2 + x * x * x / 6 + x * x * x * x / 24)%Q.

Definition Qsqrt3 (x : Q) : Q :=
  let step y := Qred ((y + x / y) / 2)%Q in
  step (step (step 1%Q)).

#[export] Instance QScalar : Scalar := {|
  sc := Q;
  s0 := 0%Q;
  sadd := fun a b => Qred (a + b)%Q;
  ssub := fun a b => Qred (a - b)%Q;
  smul := fun a b => Qred (a * b)%Q;
  sdiv := fun a b => Qred (a / b)%Q;
  smax := fun a b => if Qle_bool a b then b else a;
  sexp := Qexp4;
  ssqrt := Qsqrt3;
  s_of_Q := fun q => q;
  s_trunc := fun q => Z.quot (Qnum q) (Zpos (Qden q))
|}.

(** A table of variables for the examples: the entry at [ix] of any variable
    is the sum of the components of [ix]. *)
Definition index_sum_weights : @weights QScalar :=
  fun _ ix => inject_Z (Z.of_nat (fold_right Nat.add 0 ix)).

Definition tokens_2_0_1 : tensor Z := of_list 0%Z [2%Z; 0%Z; 1%Z].

Definition index_sum_params : @params QScalar := fun _ => index_sum_weights.

Definition keep_all : noises := fun _ _ _ => true.
Definition drop_all : noises := fun _ _ _ => false.

Definition ten_tokens : tensor Z :=
  of_list 0%Z [3; 1; 4; 1; 5; 9; 2; 6; 5; 3]%Z.

Definition three_features : @tensor Q := of_list 0%Q [0.5; 1; 2]%Q.

(** A sequence of two vectors of size three. *)
Definition two_by_three : @tensor Q :=
  {| shape := [2; 3]; data := fun ix => index_sum_weights "" ix |}.

(** A batch of two sequences of three token ids, and an empty sequence. *)
Definition token_batch : tensor Z :=
  {| shape := [2; 3];
     data := fun ix => Z.of_nat (nth 0 ix 0 + nth 1 ix 0) |}.

Definition no_tokens : tensor Z := of_list 0%Z [].

(** Three features as a column, of shape (3, 1). *)
Definition three_features_column : @tensor Q :=
  {| shape := [3; 1]; data := fun ix => inject_Z (Z.of_nat (nth 0 ix 0)) |}.

(** * Properties *)

(** ** The layers on concrete inputs *)

Example TokenAndPositionEmbedding_run :
  option_map (@to_list Q)
    (TokenAndPositionEmbedding_call
       (TokenAndPositionEmbedding_init 4 3 2) index_sum_weights tokens_2_0_1)
  = Some [2 + 0; 3 + 1; 0 + 1; 1 + 2; 1 + 2; 2 + 3]%Q.
Proof. vm_compute. reflexivity. Qed.

Example TokenAndPositionEmbedding_too_long :
  TokenAndPositionEmbedding_call
    (TokenAndPositionEmbedding_init 2 3 2) index_sum_weights tokens_2_0_1
  = None.
Proof. vm_compute. reflexivity. Qed.

Example Dense_run :
  option_map (fun t => map Qred (to_list t))
    (Dense_call {| units := 2; activation := Some relu |} index_sum_weights
       three_features)
  = Some (map Qred [1 * 1 + 2 * 2 + 0; 0.5 * 1 + 1 * 2 + 2 * 3 + 1]%Q).
Proof. vm_compute. reflexivity. Qed.

Example GlobalAveragePooling1D_run :
  option_map (fun t => map Qred (to_list t))
    (GlobalAveragePooling1D_call two_by_three)
  = Some (map Qred [(0 + 1) / 2; (1 + 2) / 2; (2 + 3) / 2]%Q).
Proof. vm_compute. reflexivity. Qed.

Example Concatenate_run :
  option_map (fun t => map Qred (to_list t))
    (Concatenate_call [three_features; three_features])
  = Some (map Qred [0.5; 1; 2; 0.5; 1; 2]%Q).
Proof. vm_compute. reflexivity. Qed.

(** In training the mask decides: a dropped entry is 0, a kept one is
    scaled by 1 / (1 - rate). *)
Example Dropout_training_run :
  map Qred (to_list (Dropout_call {| rate := 0.1%Q |}
                       (fun ix => hd 0 ix =? 1) three_features true))
  = map Qred [0; 1 / 0.9; 0]%Q
  /\ to_list (Dropout_call {| rate := 0.1%Q |} (fun ix => hd 0 ix =? 1)
                three_features false)
     = [0.5; 1; 2]%Q.
Proof. split; vm_compute; reflexivity. Qed.

(** One head of key dimension 1 over the sequence [[0]; [1]], every variable
    being 1: the scores of position 0 are 1 and 2. *)
Example MultiHeadAttention_run :
  option_map (fun t => map Qred (to_list t))
    (MultiHeadAttention_call {| num_heads := 1; key_dim := 1 |}
       (fun _ _ => 1%Q)
       {| shape := [2; 1];
          data := fun ix => inject_Z (Z.of_nat (hd 0 ix)) |}
       {| shape := [2; 1];
          data := fun ix => inject_Z (Z.of_nat (hd 0 ix)) |})
  = Some (map Qred [(Qexp4 1 * 1 + Qexp4 2 * 2) / (Qexp4 1 + Qexp4 2) + 1;
          (Qexp4 2 * 1 + Qexp4 4 * 2) / (Qexp4 2 + Qexp4 4) + 1]%Q).
Proof. vm_compute. reflexivity. Qed.

(** Whole numbers through float32: exact below 2^24, then rounded to the
    nearest multiple of 2, of 4, ..., ties to even. *)
Example float32_of_Z_run :
  map float32_of_Z
    [16777215; 16777217; 16777218; 16777219; -16777217; 33554435;
     2147483647]%Z
  = [16777215; 16777216; 16777218; 16777220; -16777216; 33554436;
     2147483648]%Z.
Proof. vm_compute. reflexivity. Qed.

(** The id 2^24 + 1 reaches the lookup as 2^24; the largest int32 reaches
    it as 2^31, which int32 does not hold. *)
Example id_through_float32_run :
  id_through_float32 16777217 = Some 16777216%Z
  /\ id_through_float32 2147483647 = None.
Proof. split; vm_compute; reflexivity. Qed.

(** A placeholder of shape (3,) takes a column (3, 1) and squeezes it; it
    refuses four features. *)
Example placeholder_run :
  option_map vshape (placeholder [3] (VReal three_features_column))
  = Some [3]
  /\ option_map vshape (placeholder [3] (VReal (of_list 0%Q [1; 2; 3; 4]%Q)))
     = None.
Proof. split; vm_compute; reflexivity. Qed.

(** ** Shapes and indices *)

Lemma bind_Some {A B : Type} (m : option A) (k : A -> option B) (b : B) :
  bind m k = Some b <-> exists a, m = Some a /\ k a = Some b.
Proof.
  destruct m as [a|]; simpl; split.
  - intros H; exists a; auto.
  - intros [a' [E H]]; inversion E; subst; exact H.
  - discriminate.
  - intros [a' [E _]]; discriminate.
Qed.

Lemma last_axis_app (pre : list nat) (d : nat) :
  last_axis (pre ++ [d]) = Some d.
Proof. unfold last_axis. rewrite rev_app_distr. reflexivity. Qed.

Lemma last_axis_Some (sh : list nat) (d : nat) :
  last_axis sh = Some d -> sh = removelast sh ++ [d].
Proof.
  unfold last_axis. intros H.
  destruct (rev sh) as [|d' r] eqn:E; [discriminate|].
  inversion H; subst d'.
  apply (f_equal (@rev nat)) in E. rewrite rev_involutive in E. simpl in E.
  subst sh. rewrite removelast_last. reflexivity.
Qed.

Lemma shape_eqb_eq (a b : list nat) : shape_eqb a b = true <-> a = b.
Proof.
  revert b; induction a as [|x a IH]; intros [|y b]; simpl;
    try (split; [discriminate | congruence]); try tauto.
  rewrite andb_true_iff, Nat.eqb_eq, IH. split.
  - intros [-> ->]; reflexivity.
  - intros E; inversion E; auto.
Qed.

Lemma shape_eqb_refl (a : list nat) : shape_eqb a a = true.
Proof. apply shape_eqb_eq; reflexivity. Qed.

Lemma bshape_rev_refl (l : list nat) : bshape_rev l l = Some l.
Proof.
  induction l as [|x l IH]; simpl; [reflexivity|].
  rewrite Nat.eqb_refl, IH. reflexivity.
Qed.

Lemma broadcast_shape_refl (sh : list nat) : broadcast_shape sh sh = Some sh.
Proof.
  unfold broadcast_shape. rewrite bshape_rev_refl. simpl.
  rewrite rev_involutive. reflexivity.
Qed.

Lemma bindex_rev_id (sh ix : list nat) :
  Forall2 lt ix sh -> bindex_rev sh ix = ix.
Proof.
  induction 1 as [|i d ix sh Hi _ IH]; simpl; [reflexivity|].
  rewrite IH. destruct (Nat.eqb_spec d 1) as [->|_]; [|reflexivity].
  f_equal. lia.
Qed.

Lemma Forall2_lt_rev (ix sh : list nat) :
  Forall2 lt ix sh -> Forall2 lt (rev ix) (rev sh).
Proof.
  induction 1 as [|i d ix sh Hi _ IH]; simpl; [constructor|].
  apply Forall2_app; [exact IH | repeat constructor; exact Hi].
Qed.

(** An entry of a broadcast operand that already has the result's shape is
    read at the same index. *)
Lemma bindex_id (sh ix : list nat) : Forall2 lt ix sh -> bindex sh ix = ix.
Proof.
  intros H. unfold bindex.
  rewrite (bindex_rev_id _ _ (Forall2_lt_rev _ _ H)). apply rev_involutive.
Qed.

Lemma all_indices_spec (sh ix : list nat) :
  In ix (all_indices sh) <-> Forall2 lt ix sh.
Proof.
  revert ix; induction sh as [|n sh IH]; intros ix; simpl.
  - split.
    + intros [<-|[]]; constructor.
    + intros H; inversion H; auto.
  - rewrite in_flat_map. split.
    + intros [i [Hi Hin]]. apply in_seq in Hi.
      apply in_map_iff in Hin. destruct Hin as [ix' [<- Hin]].
      constructor; [lia | apply IH; exact Hin].
    + intros H. inversion H as [|i n' ix' sh' Hlt Hrest]; subst.
      exists i. split; [apply in_seq; lia|].
      apply in_map. apply IH. exact Hrest.
Qed.

Lemma tf_range_positions (L : nat) :
  shape (tf_range 0 (Z.of_nat L) 1) = [L]
  /\ forall i, data (tf_range 0 (Z.of_nat L) 1) [i] = Z.of_nat i.
Proof.
  split.
  - unfold tf_range; simpl. f_equal.
    replace (Z.of_nat L - 0 + 1 - 1)%Z with (Z.of_nat L) by lia.
    rewrite Z.div_1_r. apply Nat2Z.id.
  - intros i. unfold tf_range; simpl. lia.
Qed.



(** ** Proof steps *)

(** Runs the next layer call of the goal with its shape lemma. *)
Ltac run_layer lem r E Hs :=
  let H := fresh in
  pose proof lem as H; destruct H as [r [E Hs]]; rewrite E; cbn [bind].

(** Splits a hypothesis [x <- m ;; k = Some b]. *)
Ltac invert_bind H :=
  let a := fresh "r" in
  let E := fresh "E" in
  apply bind_Some in H; destruct H as [a [E H]].

Ltac invert_Some H := inversion H; subst; clear H.

Section Layers.

Context {K : Scalar}.

(** ** The embedding lookup *)

Lemma Embedding_call_in_range (self : Embedding) (w : weights) (t : tensor Z) :
  (forall ix, Forall2 lt ix (shape t) ->
              (0 <= data t ix < Z.of_nat (input_dim self))%Z) ->
  Embedding_call self w t
  = Some {| shape := shape t ++ [output_dim self];
            data := fun ix =>
              w "embeddings" [Z.to_nat (data t (removelast ix)); last ix 0] |}.
Proof.
  intros H. unfold Embedding_call.
  replace (forallb _ _) with true; [reflexivity|].
  symmetry. apply forallb_forall. intros ix Hin.
  apply all_indices_spec in Hin. specialize (H ix Hin).
  unfold in_table. apply andb_true_iff.
  split; [apply Z.leb_le | apply Z.ltb_lt]; lia.
Qed.

Lemma Embedding_call_out_of_range (self : Embedding) (w : weights)
  (t : tensor Z) (ix : list nat) :
  Forall2 lt ix (shape t) ->
  ~ (0 <= data t ix < Z.of_nat (input_dim self))%Z ->
  Embedding_call self w t = None.
Proof.
  intros Hix Hout. unfold Embedding_call.
  destruct (forallb _ _) eqn:E; [|reflexivity].
  exfalso. apply Hout.
  rewrite forallb_forall in E.
  specialize (E ix (proj2 (all_indices_spec _ _) Hix)).
  unfold in_table in E. apply andb_true_iff in E. destruct E as [E1 E2].
  apply Z.leb_le in E1. apply Z.ltb_lt in E2. lia.
Qed.

Lemma positions_in_range (L maxlen : nat) (ix : list nat) :
  L <= maxlen ->
  Forall2 lt ix (shape (tf_range 0 (Z.of_nat L) 1)) ->
  (0 <= data (tf_range 0 (Z.of_nat L) 1) ix < Z.of_nat maxlen)%Z.
Proof.
  intros HL Hix. destruct (tf_range_positions L) as [Hs Hd].
  rewrite Hs in Hix. inversion Hix as [|i d ix' sh' Hi Hrest]; subst.
  inversion Hrest; subst. rewrite Hd. lia.
Qed.

Lemma TokenAndPositionEmbedding_call_valid
  (maxlen vocab_size embed_dim : nat) (w : weights) (x : tensor Z) (L : nat) :
  shape x = [L] ->
  L <= maxlen ->
  (forall i, i < L -> (0 <= data x [i] < Z.of_nat vocab_size)%Z) ->
  exists out,
    TokenAndPositionEmbedding_call
      (TokenAndPositionEmbedding_init maxlen vocab_size embed_dim) w x
    = Some out
    /\ shape out = [L; embed_dim]
    /\ forall i j, i < L -> j < embed_dim ->
         data out [i; j]
         = sadd (w "token_emb/embeddings" [Z.to_nat (data x [i]); j])
                (w "pos_emb/embeddings" [i; j]).
Proof.
  intros Hx HL Htok.
  unfold TokenAndPositionEmbedding_call, TokenAndPositionEmbedding_positions,
    tf_shape_last.
  rewrite Hx. change (last_axis [L]) with (Some L). cbn [bind].
  rewrite Embedding_call_in_range
    by (intros ix Hix; apply positions_in_range; assumption).
  cbn [bind].
  rewrite Embedding_call_in_range.
  2:{ intros ix Hix. rewrite Hx in Hix.
      inversion Hix as [|i d ix' sh' Hi Hrest]; subst. inversion Hrest; subst.
      apply Htok. exact Hi. }
  cbn [bind]. unfold tf_add. cbn [shape].
  rewrite Hx, (proj1 (tf_range_positions L)).
  cbn [TokenAndPositionEmbedding_init token_emb pos_emb output_dim app].
  rewrite broadcast_shape_refl. cbn [bind].
  eexists. split; [reflexivity|]. split; [reflexivity|].
  intros i j Hi Hj. cbn [data].
  rewrite bindex_id by (repeat constructor; assumption).
  cbn [removelast last]. rewrite (proj2 (tf_range_positions L)).
  rewrite Nat2Z.id. reflexivity.
Qed.

(** C2: on a sequence of [L <= maxlen] token ids of the vocabulary, [call]
    returns [L] vectors of size [embed_dim] (shape [(L, embed_dim)]); the
    vector at position [i] is, entry by entry, the token embedding of the
    [i]-th token plus the position embedding of index [i]. *)
Theorem TokenAndPositionEmbedding_call_sum
  (maxlen vocab_size embed_dim : nat) (w : weights) (x : tensor Z) (L : nat) :
  shape x = [L] ->
  L <= maxlen ->
  (forall i, i < L -> (0 <= data x [i] < Z.of_nat vocab_size)%Z) ->
  exists out,
    TokenAndPositionEmbedding_call
      (TokenAndPositionEmbedding_init maxlen vocab_size embed_dim) w x
    = Some out
    /\ shape out = [L; embed_dim]
    /\ forall i j, i < L -> j < embed_dim ->
         data out [i; j]
         = sadd (w "token_emb/embeddings" [Z.to_nat (data x [i]); j])
                (w "pos_emb/embeddings" [i; j]).
Proof. apply TokenAndPositionEmbedding_call_valid. Qed.


(** ** The transformer block *)

Lemma bind_ret {A : Type} (m : option A) : bind m (fun a => Some a) = m.
Proof. destruct m; reflexivity. Qed.

(** C1: [TransformerBlock.call] on a block made by [__init__] computes the
    six steps of the specification, in their order: self-attention with
    [num_heads] heads and key dimension [embed_dim], dropout at [rate],
    residual add to the input and layer normalization with epsilon 1e-6,
    dense([ff_dim], relu) then dense([embed_dim]), dropout at [rate],
    residual add to the normalized value and a second layer normalization
    with epsilon 1e-6. *)
Theorem TransformerBlock_call_six_steps
  (embed_dim num_heads ff_dim : nat) (rate : Q) (w : weights) (m : noise)
  (inputs : tensor sc) (training : bool) :
  TransformerBlock_call
    (TransformerBlock_init embed_dim num_heads ff_dim rate)
    w m inputs training
  = spec_six_steps embed_dim num_heads ff_dim rate w m inputs training.
Proof.
  unfold TransformerBlock_call, spec_six_steps, TransformerBlock_init.
  cbn [att ffn layernorm_a layernorm_b dropout_a dropout_b Sequential_call].
  destruct (MultiHeadAttention_call _ _ inputs inputs) as [a|];
    [cbn [bind]|reflexivity].
  destruct (tf_add inputs _) as [r|]; [cbn [bind]|reflexivity].
  destruct (LayerNormalization_call _ _ r) as [n|]; [cbn [bind]|reflexivity].
  destruct (Dense_call _ _ n) as [h|]; [cbn [bind]|reflexivity].
  rewrite bind_ret.
  destruct (Dense_call _ _ h) as [f|]; reflexivity.
Qed.

Lemma Dropout_call_shape (self : Dropout) (m : list nat -> bool)
  (x : tensor sc) (training : bool) :
  shape (Dropout_call self m x training) = shape x.
Proof. destruct training; reflexivity. Qed.

Lemma tf_add_same_shape (a b : tensor sc) :
  shape a = shape b ->
  exists r, tf_add a b = Some r /\ shape r = shape a.
Proof.
  intros E. unfold tf_add. rewrite <- E, broadcast_shape_refl.
  eexists; split; reflexivity.
Qed.

Lemma LayerNormalization_call_shape (self : LayerNormalization) (w : weights)
  (t : tensor sc) (pre : list nat) (d : nat) :
  shape t = pre ++ [d] ->
  exists r, LayerNormalization_call self w t = Some r /\ shape r = shape t.
Proof.
  intros E. unfold LayerNormalization_call, LayerNormalization_shape.
  rewrite E, last_axis_app. eexists; split; reflexivity.
Qed.

Lemma Dense_call_shape (self : Dense) (w : weights) (t : tensor sc)
  (pre : list nat) (d : nat) :
  shape t = pre ++ [d] ->
  exists r, Dense_call self w t = Some r /\ shape r = pre ++ [units self].
Proof.
  intros E. unfold Dense_call, Dense_shape.
  rewrite E, last_axis_app, removelast_last. eexists; split; reflexivity.
Qed.

Lemma MultiHeadAttention_call_shape (self : MultiHeadAttention) (w : weights)
  (query value : tensor sc) (T D S Dv : nat) :
  0 < key_dim self ->
  shape query = [T; D] -> shape value = [S; Dv] ->
  exists r, MultiHeadAttention_call self w query value = Some r
            /\ shape r = [T; D].
Proof.
  intros Hk Eq Ev. unfold MultiHeadAttention_call. rewrite Eq, Ev.
  destruct (Nat.eqb_spec (key_dim self) 0) as [E0|_]; [lia|].
  eexists; split; reflexivity.
Qed.

Lemma TransformerBlock_call_shape
  (embed_dim num_heads ff_dim : nat) (rate : Q) (w : weights) (m : noise)
  (inputs : tensor sc) (training : bool) (L : nat) :
  0 < embed_dim ->
  shape inputs = [L; embed_dim] ->
  exists out,
    TransformerBlock_call
      (TransformerBlock_init embed_dim num_heads ff_dim rate)
      w m inputs training = Some out
    /\ shape out = [L; embed_dim]
    /\ shape out = shape inputs.
Proof.
  intros He Hx. unfold TransformerBlock_call, TransformerBlock_init.
  cbn [att ffn layernorm_a layernorm_b dropout_a dropout_b Sequential_call].
  run_layer (MultiHeadAttention_call_shape
               {| num_heads := num_heads; key_dim := embed_dim |}
               (scope "att" w) inputs inputs L embed_dim L embed_dim
               He Hx Hx)
            a Ea Ha.
  run_layer (tf_add_same_shape inputs
               (Dropout_call {| rate := rate |} (m "dropout_a") a training)
               ltac:(rewrite Dropout_call_shape; congruence)) r Er Hr.
  rewrite Hx in Hr.
  run_layer (LayerNormalization_call_shape {| epsilon := 1e-6%Q |}
               (scope "layernorm_a" w) r [L] embed_dim Hr) n En Hn.
  rewrite Hr in Hn.
  run_layer (Dense_call_shape {| units := ff_dim; activation := Some relu |}
               (scope "layer" (scope "ffn" w)) n [L] embed_dim Hn) h Eh Hh.
  run_layer (Dense_call_shape {| units := embed_dim; activation := None |}
               (scope "layer" (scope "rest" (scope "ffn" w))) h
               [L] ff_dim Hh)
            f Ef Hf.
  cbn [units app] in Hf.
  run_layer (tf_add_same_shape n
               (Dropout_call {| rate := rate |} (m "dropout_b") f training)
               ltac:(rewrite Dropout_call_shape; congruence)) r' Er' Hr'.
  rewrite Hn in Hr'.
  run_layer (LayerNormalization_call_shape {| epsilon := 1e-6%Q |}
               (scope "layernorm_b" w) r' [L] embed_dim Hr') out Eo Ho.
  exists out. split; [reflexivity|]. rewrite Ho, Hr', Hx. split; reflexivity.
Qed.


End Layers.

(** ** Model graphs *)

Section Models.

Context {K : Scalar}.


Lemma eval_Call (theta : params) (rho : noises) (training : bool)
  (env : string -> option value) (p : list nat) (l : layer)
  (args : list ktensor) :
  eval theta rho training env p (Call l args)
  = (vs <- eval_args theta rho training env p 0 args ;;
     built <- infer_args args ;;
     if built_for l built (map vshape vs)
     then layer_call l (theta p) (rho p) training vs
     else None).
Proof.
  cbn [eval]. f_equal. generalize 0.
  induction args as [|a rest IH]; intros k; [reflexivity|].
  cbn [eval_args]. rewrite <- IH. reflexivity.
Qed.


Lemma infer_Call (l : layer) (args : list ktensor) :
  infer (Call l args) = (shs <- infer_args args ;; layer_shape l shs).
Proof.
  reflexivity.
Qed.

(** *** The shapes found at construction are those of the values computed *)

Lemma Embedding_call_Some_shape (self : Embedding) (w : weights)
  (t : tensor Z) (r : tensor sc) :
  Embedding_call self w t = Some r ->
  shape r = Embedding_shape self (shape t).
Proof.
  unfold Embedding_call. destruct (forallb _ _); [|discriminate].
  intros H. invert_Some H. reflexivity.
Qed.

Lemma tf_add_Some_shape (a b r : tensor sc) :
  tf_add a b = Some r -> broadcast_shape (shape a) (shape b) = Some (shape r).
Proof.
  unfold tf_add. intros H. invert_bind H. invert_Some H. exact E.
Qed.

Lemma Dense_call_Some_shape (self : Dense) (w : weights) (t r : tensor sc) :
  Dense_call self w t = Some r -> Dense_shape self (shape t) = Some (shape r).
Proof.
  unfold Dense_call. intros H. invert_bind H. invert_Some H. exact E.
Qed.

Lemma Sequential_call_Some_shape (ls : list Dense) :
  forall (w : weights) (t r : tensor sc),
  Sequential_call ls w t = Some r ->
  Sequential_shape ls (shape t) = Some (shape r).
Proof.
  induction ls as [|l ls IH]; intros w t r H; cbn in H |- *.
  - invert_Some H. reflexivity.
  - invert_bind H. rewrite (Dense_call_Some_shape _ _ _ _ E). cbn [bind].
    eapply IH. exact H.
Qed.

Lemma LayerNormalization_call_Some_shape (self : LayerNormalization)
  (w : weights) (t r : tensor sc) :
  LayerNormalization_call self w t = Some r ->
  LayerNormalization_shape (shape t) = Some (shape r).
Proof.
  unfold LayerNormalization_call. intros H. invert_bind H. invert_Some H.
  exact E.
Qed.

Lemma MultiHeadAttention_call_Some_shape (self : MultiHeadAttention)
  (w : weights) (q v r : tensor sc) :
  MultiHeadAttention_call self w q v = Some r ->
  MultiHeadAttention_shape (shape q) (shape v) = Some (shape r).
Proof.
  unfold MultiHeadAttention_call. intros H. invert_bind H. invert_bind H.
  invert_Some H. exact E.
Qed.

Lemma GlobalAveragePooling1D_call_Some_shape (t r : tensor sc) :
  GlobalAveragePooling1D_call t = Some r ->
  GlobalAveragePooling1D_shape (shape t) = Some (shape r).
Proof.
  unfold GlobalAveragePooling1D_call. intros H. invert_bind H. invert_Some H.
  exact E.
Qed.

Lemma Concatenate_call_Some_shape (ts : list (tensor sc)) (r : tensor sc) :
  Concatenate_call ts = Some r ->
  Concatenate_shape (map (@shape sc) ts) = Some (shape r).
Proof.
  unfold Concatenate_call. intros H. invert_bind H. invert_Some H. exact E.
Qed.

Lemma TokenAndPositionEmbedding_call_Some_shape
  (self : TokenAndPositionEmbedding) (w : weights) (x : tensor Z)
  (r : tensor sc) :
  TokenAndPositionEmbedding_call self w x = Some r ->
  TokenAndPositionEmbedding_shape self (shape x) = Some (shape r).
Proof.
  unfold TokenAndPositionEmbedding_call, TokenAndPositionEmbedding_positions,
    TokenAndPositionEmbedding_shape, tf_shape_last.
  intros H. invert_bind H. invert_bind E. invert_Some E. rewrite E0.
  cbn [bind]. invert_bind H. invert_bind H.
  apply Embedding_call_Some_shape in E, E1.
  apply tf_add_Some_shape in H.
  rewrite (proj1 (tf_range_positions r1)) in E. rewrite <- E, <- E1. exact H.
Qed.

Lemma TransformerBlock_call_Some_shape (self : TransformerBlock) (w : weights)
  (m : noise) (x : tensor sc) (training : bool) (r : tensor sc) :
  TransformerBlock_call self w m x training = Some r ->
  TransformerBlock_shape self (shape x) = Some (shape r).
Proof.
  unfold TransformerBlock_call, TransformerBlock_shape. intros H.
  invert_bind H. apply MultiHeadAttention_call_Some_shape in E. rewrite E.
  cbn [bind]. invert_bind H. apply tf_add_Some_shape in E0.
  rewrite Dropout_call_shape in E0. rewrite E0. cbn [bind].
  invert_bind H. apply LayerNormalization_call_Some_shape in E1. rewrite E1.
  cbn [bind]. invert_bind H. apply Sequential_call_Some_shape in E2.
  rewrite E2. cbn [bind]. invert_bind H. apply tf_add_Some_shape in E3.
  rewrite Dropout_call_shape in E3. rewrite E3. cbn [bind].
  apply LayerNormalization_call_Some_shape in H. exact H.
Qed.

Lemma as_real_shape (v : value) (t : tensor sc) :
  as_real v = Some t -> shape t = vshape v.
Proof. destruct v; intros H; invert_Some H; reflexivity. Qed.

Lemma as_ids_shape (v : value) (t : tensor Z) :
  as_ids v = Some t -> shape t = vshape v.
Proof.
  unfold as_ids. destruct (forallb _ _); [|discriminate].
  destruct v; intros H; invert_Some H; reflexivity.
Qed.

Lemma sequence_as_real_shapes (vs : list value) :
  forall ts, sequence (map as_real vs) = Some ts ->
             map vshape vs = map (@shape sc) ts.
Proof.
  induction vs as [|v vs IH]; intros ts H; cbn [map sequence] in H.
  - invert_Some H. reflexivity.
  - invert_bind H. invert_bind H. invert_Some H.
    cbn [map]. rewrite (as_real_shape _ _ E). f_equal. apply IH. exact E0.
Qed.

Lemma layer_call_Some_shape (l : layer) (w : weights) (m : noise)
  (training : bool) (vs : list value) (v : value) :
  layer_call l w m training vs = Some v ->
  layer_shape l (map vshape vs) = Some (vshape v).
Proof.
  destruct l; cbn [layer_call layer_shape]; intros H.
  - destruct vs as [|x [|? ?]]; try discriminate.
    invert_bind H. invert_bind H. invert_Some H.
    apply TokenAndPositionEmbedding_call_Some_shape in E0.
    cbn [map vshape]. rewrite <- (as_ids_shape _ _ E). exact E0.
  - destruct vs as [|x [|? ?]]; try discriminate.
    invert_bind H. invert_bind H. invert_Some H.
    apply TransformerBlock_call_Some_shape in E0.
    cbn [map vshape]. rewrite <- (as_real_shape _ _ E). exact E0.
  - destruct vs as [|x [|? ?]]; try discriminate.
    invert_bind H. invert_bind H. invert_Some H.
    apply GlobalAveragePooling1D_call_Some_shape in E0.
    cbn [map vshape]. rewrite <- (as_real_shape _ _ E). exact E0.
  - destruct vs as [|x [|? ?]]; try discriminate.
    invert_bind H. invert_Some H.
    cbn [map vshape]. rewrite Dropout_call_shape, (as_real_shape _ _ E).
    reflexivity.
  - destruct vs as [|x [|? ?]]; try discriminate.
    invert_bind H. invert_bind H. invert_Some H.
    apply Dense_call_Some_shape in E0.
    cbn [map vshape]. rewrite <- (as_real_shape _ _ E). exact E0.
  - invert_bind H. invert_bind H. invert_Some H.
    rewrite (sequence_as_real_shapes _ _ E).
    apply Concatenate_call_Some_shape in E0. exact E0.
Qed.

(** A call in a graph that returns: its arguments returned, it was built on
    their shapes at construction, and the shape of the result is the one
    the layer gives to the shapes it was called on. *)
Lemma eval_Call_Some (theta : params) (rho : noises) (training : bool)
  (env : string -> option value) (p : list nat) (l : layer)
  (args : list ktensor) (v : value) :
  eval theta rho training env p (Call l args) = Some v ->
  exists vs built,
    eval_args theta rho training env p 0 args = Some vs
    /\ infer_args args = Some built
    /\ built_for l built (map vshape vs) = true
    /\ layer_call l (theta p) (rho p) training vs = Some v
    /\ layer_shape l (map vshape vs) = Some (vshape v).
Proof.
  rewrite eval_Call. intros H. invert_bind H. invert_bind H.
  destruct (built_for l r0 (map vshape r)) eqn:Eb; [|discriminate].
  exists r, r0. repeat split; try assumption.
  eapply layer_call_Some_shape. exact H.
Qed.

Lemma eval_Call1_Some (theta : params) (rho : noises) (training : bool)
  (env : string -> option value) (p : list nat) (l : layer) (a : ktensor)
  (v : value) :
  eval theta rho training env p (Call l [a]) = Some v ->
  exists va sh,
    eval theta rho training env (0 :: p) a = Some va
    /\ infer a = Some sh
    /\ built_for l [sh] [vshape va] = true
    /\ layer_call l (theta p) (rho p) training [va] = Some v
    /\ layer_shape l [vshape va] = Some (vshape v).
Proof.
  intros H. apply eval_Call_Some in H.
  destruct H as [vs [built [Ea [Ei [Eb [El Es]]]]]].
  cbn [eval_args] in Ea. invert_bind Ea. invert_Some Ea.
  cbn [infer_args] in Ei. invert_bind Ei. invert_Some Ei.
  exists r, r0. repeat split; assumption.
Qed.

Lemma eval_Call1 (theta : params) (rho : noises) (training : bool)
  (env : string -> option value) (p : list nat) (l : layer) (a : ktensor)
  (va : value) (sh : list nat) :
  infer a = Some sh ->
  eval theta rho training env (0 :: p) a = Some va ->
  eval theta rho training env p (Call l [a])
  = if built_for l [sh] [vshape va]
    then layer_call l (theta p) (rho p) training [va]
    else None.
Proof.
  intros Hi He. rewrite eval_Call. cbn [eval_args infer_args].
  rewrite He, Hi. reflexivity.
Qed.

(** *** Inference does not read the masks *)

Lemma TransformerBlock_call_inference (self : TransformerBlock) (w : weights)
  (m1 m2 : noise) (x : tensor sc) :
  TransformerBlock_call self w m1 x false
  = TransformerBlock_call self w m2 x false.
Proof. reflexivity. Qed.

Lemma layer_call_inference (l : layer) (w : weights) (m1 m2 : noise)
  (vs : list value) :
  layer_call l w m1 false vs = layer_call l w m2 false vs.
Proof.
  destruct l; try reflexivity;
    destruct vs as [|x [|v vs]]; try reflexivity;
    cbn [layer_call]; destruct (as_real x); reflexivity.
Qed.

Lemma eval_inference (theta : params) (rho1 rho2 : noises)
  (env : string -> option value) (t : ktensor) :
  forall p, eval theta rho1 false env p t = eval theta rho2 false env p t.
Proof.
  induction t as [tag sh|l args IH] using ktensor_ind; intros p;
    [reflexivity|].
  rewrite !eval_Call.
  assert (E : forall k, eval_args theta rho1 false env p k args
                        = eval_args theta rho2 false env p k args).
  { induction IH as [|a rest Ha _ IHrest]; intros k; [reflexivity|].
    cbn [eval_args]. rewrite Ha, IHrest. reflexivity. }
  rewrite E. destruct (eval_args _ _ _ _ _ _ _) as [vs|]; [|reflexivity].
  cbn [bind]. destruct (infer_args args) as [built|]; [|reflexivity].
  cbn [bind]. destruct (built_for l built (map vshape vs)); [|reflexivity].
  apply layer_call_inference.
Qed.

Lemma Model_call_inference (m : Model) (theta : params) (rho1 rho2 : noises)
  (xs : list value) :
  Model_call m theta rho1 xs false = Model_call m theta rho2 xs false.
Proof.
  unfold Model_call. destruct (feed (inputs m) xs) as [env|]; [|reflexivity].
  apply eval_inference.
Qed.

(** *** What the builders build *)

Lemma get_next_activity_model_graph
  (max_case_length vocab_size output_dim embed_dim num_heads ff_dim : nat) :
  outputs (get_next_activity_model
             max_case_length vocab_size output_dim embed_dim num_heads ff_dim)
  = spec_head 64 output_dim
      (spec_pooled_sequence
         max_case_length vocab_size embed_dim num_heads ff_dim
         (Input "inputs" [max_case_length])).
Proof. reflexivity. Qed.

Lemma get_next_time_model_graph
  (max_case_length vocab_size output_dim embed_dim num_heads ff_dim : nat) :
  outputs (get_next_time_model
             max_case_length vocab_size output_dim embed_dim num_heads ff_dim)
  = spec_head 128 output_dim
      (spec_with_time_features
         (spec_pooled_sequence max_case_length vocab_size embed_dim num_heads
            ff_dim (Input "inputs" [max_case_length]))
         (Input "time_inputs" [3])).
Proof. reflexivity. Qed.

Lemma get_remaining_time_model_graph
  (max_case_length vocab_size output_dim embed_dim num_heads ff_dim : nat) :
  outputs (get_remaining_time_model
             max_case_length vocab_size output_dim embed_dim num_heads ff_dim)
  = spec_head 128 output_dim
      (spec_with_time_features
         (spec_pooled_sequence max_case_length vocab_size embed_dim num_heads
            ff_dim (Input "inputs" [max_case_length]))
         (Input "time_inputs" [3])).
Proof. reflexivity. Qed.

(** *** Shapes of the three graphs at construction *)

Lemma TokenAndPositionEmbedding_shape_sequence
  (maxlen vocab_size embed_dim L : nat) :
  TokenAndPositionEmbedding_shape
    (TokenAndPositionEmbedding_init maxlen vocab_size embed_dim) [L]
  = Some [L; embed_dim].
Proof.
  unfold TokenAndPositionEmbedding_shape. cbn. apply broadcast_shape_refl.
Qed.

Lemma TransformerBlock_shape_sequence
  (embed_dim num_heads ff_dim : nat) (rate : Q) (L : nat) :
  TransformerBlock_shape
    (TransformerBlock_init embed_dim num_heads ff_dim rate) [L; embed_dim]
  = Some [L; embed_dim].
Proof.
  unfold TransformerBlock_shape.
  cbn [MultiHeadAttention_shape bind]. rewrite broadcast_shape_refl.
  cbn. rewrite broadcast_shape_refl. reflexivity.
Qed.

Lemma infer_pooled_sequence
  (max_case_length vocab_size embed_dim num_heads ff_dim : nat)
  (tag : string) :
  infer (spec_pooled_sequence
           max_case_length vocab_size embed_dim num_heads ff_dim
           (Input tag [max_case_length]))
  = Some [embed_dim].
Proof.
  unfold spec_pooled_sequence. rewrite !infer_Call.
  cbn [infer_args infer bind layer_shape].
  rewrite TokenAndPositionEmbedding_shape_sequence. cbn [bind].
  rewrite TransformerBlock_shape_sequence. reflexivity.
Qed.

Lemma infer_head (hidden output_dim d : nat) (x : ktensor) :
  infer x = Some [d] ->
  infer (spec_head hidden output_dim x) = Some [output_dim].
Proof.
  intros H. unfold spec_head. cbn [infer]. rewrite H. reflexivity.
Qed.

Lemma infer_with_time_features (d k : nat) (pooled numeric_input : ktensor) :
  infer pooled = Some [d] -> infer numeric_input = Some [k] ->
  infer (spec_with_time_features pooled numeric_input) = Some [d + 32].
Proof.
  intros Hp Hn. unfold spec_with_time_features. cbn [infer].
  rewrite Hp, Hn. reflexivity.
Qed.

Lemma get_next_activity_model_output_shape
  (max_case_length vocab_size output_dim embed_dim num_heads ff_dim : nat) :
  Model_output_shape
    (get_next_activity_model
       max_case_length vocab_size output_dim embed_dim num_heads ff_dim)
  = Some [output_dim].
Proof.
  unfold Model_output_shape. rewrite get_next_activity_model_graph.
  eapply infer_head. apply infer_pooled_sequence.
Qed.

Lemma get_next_time_model_output_shape
  (max_case_length vocab_size output_dim embed_dim num_heads ff_dim : nat) :
  Model_output_shape
    (get_next_time_model
       max_case_length vocab_size output_dim embed_dim num_heads ff_dim)
  = Some [output_dim].
Proof.
  unfold Model_output_shape. rewrite get_next_time_model_graph.
  eapply infer_head. eapply infer_with_time_features;
    [apply infer_pooled_sequence | reflexivity].
Qed.

Lemma get_remaining_time_model_output_shape
  (max_case_length vocab_size output_dim embed_dim num_heads ff_dim : nat) :
  Model_output_shape
    (get_remaining_time_model
       max_case_length vocab_size output_dim embed_dim num_heads ff_dim)
  = Some [output_dim].
Proof.
  unfold Model_output_shape. rewrite get_remaining_time_model_graph.
  eapply infer_head. eapply infer_with_time_features;
    [apply infer_pooled_sequence | reflexivity].
Qed.

(** *** Running the three graphs *)

Lemma GlobalAveragePooling1D_call_shape (t : tensor sc) (L E : nat) :
  shape t = [L; E] ->
  exists r, GlobalAveragePooling1D_call t = Some r /\ shape r = [E].
Proof.
  intros H. unfold GlobalAveragePooling1D_call. rewrite H.
  eexists; split; reflexivity.
Qed.

Lemma Concatenate_call_vectors (a b : tensor sc) (n k : nat) :
  shape a = [n] -> shape b = [k] ->
  exists r, Concatenate_call [a; b] = Some r /\ shape r = [n + k].
Proof.
  intros Ha Hb. unfold Concatenate_call. cbn [map]. rewrite Ha, Hb.
  cbn. rewrite Nat.add_0_r. eexists; split; reflexivity.
Qed.


(** The casts of an id. *)

Lemma float32_of_Z_small (z : Z) :
  (Z.abs z < 2 ^ 24)%Z -> float32_of_Z z = z.
Proof.
  intros H. unfold float32_of_Z.
  destruct (Z.ltb_spec (Z.abs z) (2 ^ 24)) as [_|Hge]; [reflexivity | lia].
Qed.

Lemma id_accepted_small (vocab_size : nat) (z : Z) :
  (Z.abs z < 2 ^ 24)%Z ->
  id_accepted vocab_size z = in_table vocab_size z.
Proof.
  intros H. unfold id_accepted, id_through_float32, int32_of_float32.
  rewrite (float32_of_Z_small z H).
  replace (in_int32 z) with true; [reflexivity|].
  symmetry. unfold in_int32. apply andb_true_iff.
  split; [apply Z.leb_le | apply Z.ltb_lt]; lia.
Qed.

Lemma id_accepted_true (vocab_size : nat) (z : Z) :
  id_accepted vocab_size z = true ->
  in_int32 (float32_of_Z z) = true
  /\ (0 <= float32_of_Z z < Z.of_nat vocab_size)%Z.
Proof.
  unfold id_accepted, id_through_float32, int32_of_float32.
  destruct (in_int32 (float32_of_Z z)); [|discriminate].
  intros H. apply andb_true_iff in H. destruct H as [H1 H2].
  apply Z.leb_le in H1. apply Z.ltb_lt in H2. split; [reflexivity | lia].
Qed.

Lemma id_accepted_intro (vocab_size : nat) (z : Z) :
  in_int32 (float32_of_Z z) = true ->
  (0 <= float32_of_Z z < Z.of_nat vocab_size)%Z ->
  id_accepted vocab_size z = true.
Proof.
  intros Hi Hr. unfold id_accepted, id_through_float32, int32_of_float32.
  rewrite Hi. apply andb_true_iff.
  split; [apply Z.leb_le | apply Z.ltb_lt]; lia.
Qed.

(** Placeholders fed a tensor of their own shape. *)

Lemma dims_agree_refl (sh : list nat) : dims_agree sh sh = true.
Proof.
  induction sh as [|x sh IH]; [reflexivity|].
  cbn [dims_agree]. rewrite Nat.eqb_refl. exact IH.
Qed.

Lemma conform_same {A : Type} (sh : list nat) (t : tensor A) :
  shape t = sh -> conform sh t = t.
Proof.
  intros H. unfold conform. rewrite H.
  destruct (Nat.eqb_spec (List.length sh) (List.length sh + 1)) as [E|_];
    [lia|].
  destruct (Nat.eqb_spec (List.length sh + 1) (List.length sh)) as [E|_];
    [lia|].
  reflexivity.
Qed.

Lemma placeholder_same (sh : list nat) (v : value) :
  vshape v = sh ->
  placeholder sh v
  = Some match v with
         | VInt t => VInt (tmap float32_of_Z t)
         | VReal t => VReal t
         end.
Proof.
  intros H. unfold placeholder, input_compatible.
  rewrite H, dims_agree_refl.
  destruct v as [t|t]; cbn [vshape] in H; rewrite (conform_same sh t H);
    reflexivity.
Qed.

Lemma as_ids_VInt (t : tensor Z) :
  (forall ix, Forall2 lt ix (shape t) -> in_int32 (data t ix) = true) ->
  as_ids (VInt t) = Some t.
Proof.
  intros H. unfold as_ids.
  replace (forallb _ _) with true; [reflexivity|].
  symmetry. apply forallb_forall. intros ix Hin.
  apply H. apply all_indices_spec. exact Hin.
Qed.

Lemma as_ids_VInt_Some (t r : tensor Z) (ix : list nat) :
  as_ids (VInt t) = Some r ->
  Forall2 lt ix (shape t) ->
  r = t /\ in_int32 (data t ix) = true.
Proof.
  unfold as_ids. destruct (forallb _ _) eqn:E; [|discriminate].
  intros H Hix. invert_Some H. split; [reflexivity|].
  rewrite forallb_forall in E. apply E. apply all_indices_spec. exact Hix.
Qed.

(** The layers of the pipeline, one call at a time. *)

Lemma runs_Input (theta : params) (rho : noises) (training : bool)
  (env : string -> option value) (tag : string) (t : tensor sc)
  (sh : list nat) :
  env tag = Some (VReal t) -> shape t = sh ->
  runs_to theta rho training env (Input tag sh) sh.
Proof.
  intros Henv Ht. split; [reflexivity|]. intros p. cbn [eval].
  rewrite Henv. cbn [bind]. rewrite (placeholder_same sh (VReal t) Ht).
  exists t. split; [reflexivity | exact Ht].
Qed.

Lemma runs_Embedding (theta : params) (rho : noises) (training : bool)
  (env : string -> option value)
  (max_case_length vocab_size embed_dim : nat) (tag : string)
  (x : tensor Z) :
  env tag = Some (VInt x) ->
  shape x = [max_case_length] ->
  (forall i, i < max_case_length ->
             id_accepted vocab_size (data x [i]) = true) ->
  runs_to theta rho training env
    (Call (L_TokenAndPositionEmbedding
             (TokenAndPositionEmbedding_init
                max_case_length vocab_size embed_dim))
       [Input tag [max_case_length]])
    [max_case_length; embed_dim].
Proof.
  intros Henv Hx Htok. split.
  - cbn [infer bind layer_shape].
    apply TokenAndPositionEmbedding_shape_sequence.
  - intros p.
    rewrite (eval_Call1 theta rho training env p _ (Input tag [max_case_length])
               (VInt (tmap float32_of_Z x)) [max_case_length] eq_refl).
    2:{ cbn [eval]. rewrite Henv. cbn [bind].
        apply (placeholder_same [max_case_length] (VInt x) Hx). }
    cbn [built_for layer_call].
    rewrite as_ids_VInt.
    2:{ intros ix Hix. cbn [tmap shape] in Hix. rewrite Hx in Hix.
        inversion Hix as [|i d ix' sh' Hi Hrest]; subst.
        inversion Hrest; subst. cbn [tmap data].
        apply (id_accepted_true vocab_size). apply Htok. exact Hi. }
    cbn [bind].
    destruct (TokenAndPositionEmbedding_call_valid
                max_case_length vocab_size embed_dim (theta p)
                (tmap float32_of_Z x) max_case_length Hx (le_n _))
      as [e [Ee [He _]]].
    { intros i Hi. cbn [tmap data].
      apply (id_accepted_true vocab_size). apply Htok. exact Hi. }
    rewrite Ee. cbn [bind]. exists e. split; [reflexivity | exact He].
Qed.

Lemma runs_TransformerBlock (theta : params) (rho : noises)
  (training : bool) (env : string -> option value)
  (embed_dim num_heads ff_dim : nat) (rate : Q) (L : nat) (x : ktensor) :
  0 < embed_dim ->
  runs_to theta rho training env x [L; embed_dim] ->
  runs_to theta rho training env
    (Call (L_TransformerBlock
             (TransformerBlock_init embed_dim num_heads ff_dim rate)) [x])
    [L; embed_dim].
Proof.
  intros He [Hi Hx]. split.
  - cbn [infer]. rewrite Hi. cbn [bind layer_shape].
    apply TransformerBlock_shape_sequence.
  - intros p. destruct (Hx (0 :: p)) as [r [Er Hr]].
    rewrite (eval_Call1 theta rho training env p _ x (VReal r) _ Hi Er).
    cbn [built_for vshape]. rewrite Hr. cbn [List.length last].
    rewrite !Nat.eqb_refl. cbn [andb layer_call as_real bind].
    destruct (TransformerBlock_call_shape
                embed_dim num_heads ff_dim rate (theta p) (rho p) r training
                L He Hr) as [b [Eb [Hb _]]].
    rewrite Eb. cbn [bind]. exists b. split; [reflexivity | exact Hb].
Qed.

Lemma runs_GlobalAveragePooling1D (theta : params) (rho : noises)
  (training : bool) (env : string -> option value) (L E : nat)
  (x : ktensor) :
  runs_to theta rho training env x [L; E] ->
  runs_to theta rho training env (Call L_GlobalAveragePooling1D [x]) [E].
Proof.
  intros [Hi Hx]. split.
  - cbn [infer]. rewrite Hi. reflexivity.
  - intros p. destruct (Hx (0 :: p)) as [r [Er Hr]].
    rewrite (eval_Call1 theta rho training env p _ x (VReal r) _ Hi Er).
    cbn [built_for layer_call as_real bind].
    destruct (GlobalAveragePooling1D_call_shape r L E Hr) as [g [Eg Hg]].
    rewrite Eg. cbn [bind]. exists g. split; [reflexivity | exact Hg].
Qed.

Lemma runs_Dropout (theta : params) (rho : noises) (training : bool)
  (env : string -> option value) (d : Dropout) (sh : list nat)
  (x : ktensor) :
  runs_to theta rho training env x sh ->
  runs_to theta rho training env (Call (L_Dropout d) [x]) sh.
Proof.
  intros [Hi Hx]. split.
  - cbn [infer]. rewrite Hi. reflexivity.
  - intros p. destruct (Hx (0 :: p)) as [r [Er Hr]].
    rewrite (eval_Call1 theta rho training env p _ x (VReal r) _ Hi Er).
    cbn [built_for layer_call as_real bind].
    eexists. split; [reflexivity|]. rewrite Dropout_call_shape. exact Hr.
Qed.

Lemma runs_Dense (theta : params) (rho : noises) (training : bool)
  (env : string -> option value) (d : Dense) (k : nat) (x : ktensor) :
  runs_to theta rho training env x [k] ->
  runs_to theta rho training env (Call (L_Dense d) [x]) [units d].
Proof.
  intros [Hi Hx]. split.
  - cbn [infer]. rewrite Hi. reflexivity.
  - intros p. destruct (Hx (0 :: p)) as [r [Er Hr]].
    rewrite (eval_Call1 theta rho training env p _ x (VReal r) _ Hi Er).
    cbn [built_for vshape]. rewrite Hr. cbn [last_axis rev app].
    rewrite Nat.eqb_refl. cbn [layer_call as_real bind].
    destruct (Dense_call_shape d (theta p) r [] k Hr) as [o [Eo Ho]].
    rewrite Eo. cbn [bind]. exists o. split; [reflexivity | exact Ho].
Qed.

Lemma runs_Concatenate (theta : params) (rho : noises) (training : bool)
  (env : string -> option value) (n k : nat) (a b : ktensor) :
  runs_to theta rho training env a [n] ->
  runs_to theta rho training env b [k] ->
  runs_to theta rho training env (Call L_Concatenate [a; b]) [n + k].
Proof.
  intros [Hia Ha] [Hib Hb]. split.
  - cbn [infer]. rewrite Hia, Hib. cbn. rewrite Nat.add_0_r. reflexivity.
  - intros p. destruct (Ha (0 :: p)) as [ra [Ea Hra]].
    destruct (Hb (1 :: p)) as [rb [Eb Hrb]].
    rewrite eval_Call. cbn [eval_args infer_args].
    rewrite Ea, Eb, Hia, Hib.
    cbn [bind built_for layer_call map as_real sequence].
    destruct (Concatenate_call_vectors ra rb n k Hra Hrb) as [c [Ec Hc]].
    rewrite Ec. cbn [bind]. exists c. split; [reflexivity | exact Hc].
Qed.

Lemma runs_pooled_sequence (theta : params) (rho : noises) (training : bool)
  (env : string -> option value)
  (max_case_length vocab_size embed_dim num_heads ff_dim : nat)
  (tag : string) (x : tensor Z) :
  0 < embed_dim ->
  env tag = Some (VInt x) ->
  shape x = [max_case_length] ->
  (forall i, i < max_case_length ->
             id_accepted vocab_size (data x [i]) = true) ->
  runs_to theta rho training env
    (spec_pooled_sequence max_case_length vocab_size embed_dim num_heads
       ff_dim (Input tag [max_case_length]))
    [embed_dim].
Proof.
  intros He Henv Hx Htok. unfold spec_pooled_sequence.
  eapply runs_GlobalAveragePooling1D.
  apply runs_TransformerBlock; [exact He|].
  apply (runs_Embedding theta rho training env
           max_case_length vocab_size embed_dim tag x Henv Hx Htok).
Qed.

Lemma runs_head (theta : params) (rho : noises) (training : bool)
  (env : string -> option value) (hidden output_dim d : nat) (x : ktensor) :
  runs_to theta rho training env x [d] ->
  runs_to theta rho training env (spec_head hidden output_dim x) [output_dim].
Proof.
  intros Hx. unfold spec_head.
  apply (runs_Dense theta rho training env
           {| units := output_dim; activation := Some linear |} hidden).
  apply runs_Dropout.
  apply (runs_Dense theta rho training env
           {| units := hidden; activation := Some relu |} d).
  apply runs_Dropout. exact Hx.
Qed.

Lemma runs_with_time_features (theta : params) (rho : noises)
  (training : bool) (env : string -> option value) (d k : nat)
  (pooled numeric_input : ktensor) :
  runs_to theta rho training env pooled [d] ->
  runs_to theta rho training env numeric_input [k] ->
  runs_to theta rho training env
    (spec_with_time_features pooled numeric_input) [d + 32].
Proof.
  intros Hp Hn. unfold spec_with_time_features.
  apply runs_Concatenate; [exact Hp|].
  apply (runs_Dense theta rho training env
           {| units := 32; activation := Some relu |} k). exact Hn.
Qed.

Lemma get_next_activity_model_runs
  (max_case_length vocab_size output_dim embed_dim num_heads ff_dim : nat)
  (theta : params) (rho : noises) (x : tensor Z) (training : bool) :
  0 < embed_dim ->
  shape x = [max_case_length] ->
  (forall i, i < max_case_length ->
             id_accepted vocab_size (data x [i]) = true) ->
  exists out,
    Model_call
      (get_next_activity_model
         max_case_length vocab_size output_dim embed_dim num_heads ff_dim)
      theta rho [VInt x] training
    = Some (VReal out)
    /\ shape out = [output_dim].
Proof.
  intros He Hx Htok. unfold Model_call.
  rewrite get_next_activity_model_graph.
  cbn [get_next_activity_model inputs feed bind].
  eapply runs_head.
  eapply runs_pooled_sequence; [exact He | reflexivity | exact Hx | exact Htok].
Qed.

Lemma time_model_graph_runs
  (max_case_length vocab_size output_dim embed_dim num_heads ff_dim : nat)
  (theta : params) (rho : noises) (x : tensor Z) (training : bool)
  (env : string -> option value) :
  0 < embed_dim ->
  env "inputs" = Some (VInt x) ->
  shape x = [max_case_length] ->
  (forall i, i < max_case_length ->
             id_accepted vocab_size (data x [i]) = true) ->
  runs_to theta rho training env (Input "time_inputs" [3]) [3] ->
  runs_to theta rho training env
    (spec_head 128 output_dim
       (spec_with_time_features
          (spec_pooled_sequence max_case_length vocab_size embed_dim num_heads
             ff_dim (Input "inputs" [max_case_length]))
          (Input "time_inputs" [3])))
    [output_dim].
Proof.
  intros He Hin Hx Htok Ht.
  eapply runs_head. eapply runs_with_time_features.
  - eapply runs_pooled_sequence; [exact He | exact Hin | exact Hx | exact Htok].
  - exact Ht.
Qed.

(** *** The claims about the builders *)

(** C3: the three builders wire the same pipeline: token and position
    embedding of the sequence, one transformer block, global average
    pooling, dropout(0.1), dense(hidden, relu), dropout(0.1),
    dense(output_dim, linear).  The hidden width is 64 for the next-activity
    model; in the two time models the 3-feature input goes through its own
    dense(32, relu), is concatenated after the pooled sequence, and the
    hidden width is 128. *)
Theorem builders_wire_the_pipeline
  (max_case_length vocab_size output_dim embed_dim num_heads ff_dim : nat) :
  let pooled :=
    spec_pooled_sequence max_case_length vocab_size embed_dim num_heads ff_dim
      (Input "inputs" [max_case_length]) in
  let numeric := Input "time_inputs" [3] in
  outputs (get_next_activity_model
             max_case_length vocab_size output_dim embed_dim num_heads ff_dim)
  = spec_head 64 output_dim pooled
  /\ outputs (get_next_time_model
                max_case_length vocab_size output_dim embed_dim num_heads
                ff_dim)
     = spec_head 128 output_dim (spec_with_time_features pooled numeric)
  /\ outputs (get_remaining_time_model
                max_case_length vocab_size output_dim embed_dim num_heads
                ff_dim)
     = spec_head 128 output_dim (spec_with_time_features pooled numeric).
Proof. repeat split. Qed.

(** C4, amended to what the code does: for every argument tuple the final
    output width of each of the three models is the [output_dim] it was
    given; for the two time models that is 1 when [output_dim] is left at
    its default. *)
Theorem builders_output_width
  (max_case_length vocab_size output_dim embed_dim num_heads ff_dim : nat) :
  Model_output_shape
    (get_next_activity_model
       max_case_length vocab_size output_dim embed_dim num_heads ff_dim)
  = Some [output_dim]
  /\ Model_output_shape
       (get_next_time_model
          max_case_length vocab_size output_dim embed_dim num_heads ff_dim)
     = Some [output_dim]
  /\ Model_output_shape
       (get_remaining_time_model
          max_case_length vocab_size output_dim embed_dim num_heads ff_dim)
     = Some [output_dim]
  /\ Model_output_shape
       (get_next_time_model_defaults max_case_length vocab_size)
     = Some [1]
  /\ Model_output_shape
       (get_remaining_time_model_defaults max_case_length vocab_size)
     = Some [1].
Proof.
  repeat split.
  - apply get_next_activity_model_output_shape.
  - apply get_next_time_model_output_shape.
  - apply get_remaining_time_model_output_shape.
  - apply get_next_time_model_output_shape.
  - apply get_remaining_time_model_output_shape.
Qed.

(** C5: each builder returns a model whose sequence input has shape
    [(max_case_length,)], whose numeric input, present in the two time
    models only, has shape [(3,)], and whose name is fixed. *)
Theorem builders_inputs_and_names
  (max_case_length vocab_size output_dim embed_dim num_heads ff_dim : nat) :
  let activity :=
    get_next_activity_model
      max_case_length vocab_size output_dim embed_dim num_heads ff_dim in
  let next_time :=
    get_next_time_model
      max_case_length vocab_size output_dim embed_dim num_heads ff_dim in
  let remaining :=
    get_remaining_time_model
      max_case_length vocab_size output_dim embed_dim num_heads ff_dim in
  (inputs activity = [Input "inputs" [max_case_length]]
   /\ Model_input_shape activity = Some [[max_case_length]]
   /\ name activity = "next_activity_transformer")
  /\ (inputs next_time
      = [Input "inputs" [max_case_length]; Input "time_inputs" [3]]
      /\ Model_input_shape next_time = Some [[max_case_length]; [3]]
      /\ name next_time = "next_time_transformer")
  /\ (inputs remaining
      = [Input "inputs" [max_case_length]; Input "time_inputs" [3]]
      /\ Model_input_shape remaining = Some [[max_case_length]; [3]]
      /\ name remaining = "remaining_time_transformer").
Proof. repeat split. Qed.

(** C7: outside training a dropout returns its input, the transformer block
    and the three models do not read the random masks, and so two forward
    passes on the same input, whatever masks each would draw, return the
    same output. *)
Theorem inference_is_deterministic :
  (forall (self : Dropout) (m : list nat -> bool) (x : tensor sc),
     Dropout_call self m x false = x)
  /\ (forall (self : TransformerBlock) (w : weights) (m1 m2 : noise)
             (x : tensor sc),
        TransformerBlock_call self w m1 x false
        = TransformerBlock_call self w m2 x false)
  /\ (forall (max_case_length vocab_size output_dim embed_dim num_heads
              ff_dim : nat)
             (theta : params) (rho1 rho2 : noises) (xs : list value),
        let activity :=
          get_next_activity_model
            max_case_length vocab_size output_dim embed_dim num_heads ff_dim in
        let next_time :=
          get_next_time_model
            max_case_length vocab_size output_dim embed_dim num_heads ff_dim in
        let remaining :=
          get_remaining_time_model
            max_case_length vocab_size output_dim embed_dim num_heads ff_dim in
        Model_call activity theta rho1 xs false
        = Model_call activity theta rho2 xs false
        /\ Model_call next_time theta rho1 xs false
           = Model_call next_time theta rho2 xs false
        /\ Model_call remaining theta rho1 xs false
           = Model_call remaining theta rho2 xs false).
Proof.
  split; [reflexivity|]. split; [reflexivity|].
  intros. repeat split; apply Model_call_inference.
Qed.

(** C8: with [embed_dim=36], [num_heads=4], [ff_dim=64],
    [max_case_length=10], [vocab_size=50] and [output_dim=5] the
    next-activity model returns a vector of 5 entries on a sequence of 10
    token ids of the vocabulary. *)
Theorem next_activity_model_example
  (theta : params) (rho : noises) (x : tensor Z) (training : bool) :
  shape x = [10] ->
  (forall i, i < 10 -> (0 <= data x [i] < 50)%Z) ->
  let model := get_next_activity_model 10 50 5 36 4 64 in
  Model_output_shape model = Some [5]
  /\ exists out,
       Model_call model theta rho [VInt x] training = Some (VReal out)
       /\ shape out = [5]
       /\ List.length (to_list out) = 5.
Proof.
  intros Hx Htok model. split.
  - apply get_next_activity_model_output_shape.
  - destruct (get_next_activity_model_runs 10 50 5 36 4 64 theta rho x
                training) as [out [E Hs]].
    { lia. }
    { exact Hx. }
    { intros i Hi. specialize (Htok i Hi).
      rewrite id_accepted_small by lia.
      unfold in_table. apply andb_true_iff.
      split; [apply Z.leb_le | apply Z.ltb_lt]; lia. }
    exists out. split; [exact E|]. split; [exact Hs|].
    unfold to_list. rewrite Hs. reflexivity.
Qed.

(** C9: on the same arguments [get_next_time_model] and
    [get_remaining_time_model] build the same graph over the same inputs,
    so with the same variables they compute the same function; the two
    models differ in their name only. *)
Theorem time_models_differ_in_name_only
  (max_case_length vocab_size output_dim embed_dim num_heads ff_dim : nat) :
  let next_time :=
    get_next_time_model
      max_case_length vocab_size output_dim embed_dim num_heads ff_dim in
  let remaining :=
    get_remaining_time_model
      max_case_length vocab_size output_dim embed_dim num_heads ff_dim in
  remaining = {| inputs := inputs next_time;
                 outputs := outputs next_time;
                 name := "remaining_time_transformer" |}
  /\ name next_time = "next_time_transformer"
  /\ name next_time <> name remaining
  /\ forall (theta : params) (rho : noises) (xs : list value)
            (training : bool),
       Model_call next_time theta rho xs training
       = Model_call remaining theta rho xs training.
Proof.
  intros next_time remaining.
  split; [reflexivity|]. split; [reflexivity|]. split; [discriminate|].
  reflexivity.
Qed.

End Models.

(** * Further properties *)

(** ** Broadcasting a sequence over leading axes *)

Lemma bshape_rev_app (l r : list nat) : bshape_rev (l ++ r) l = Some (l ++ r).
Proof.
  induction l as [|x l IH]; simpl.
  - destruct r; reflexivity.
  - rewrite Nat.eqb_refl, IH. reflexivity.
Qed.

Lemma broadcast_shape_prefix (pre sh : list nat) :
  broadcast_shape (pre ++ sh) sh = Some (pre ++ sh).
Proof.
  unfold broadcast_shape. rewrite rev_app_distr, bshape_rev_app. cbn [bind].
  rewrite <- rev_app_distr, rev_involutive. reflexivity.
Qed.

Lemma bindex_rows (L E : nat) (p : list nat) (i j : nat) :
  i < L -> j < E -> bindex [L; E] (p ++ [i; j]) = [i; j].
Proof.
  intros Hi Hj. unfold bindex. rewrite rev_app_distr. cbn.
  destruct (Nat.eqb_spec E 1) as [->|_], (Nat.eqb_spec L 1) as [->|_];
    repeat f_equal; lia.
Qed.


Section MoreLayers.

Context {K : Scalar}.

(** ** The embedding layer: batches, failures, the empty sequence *)

Lemma Embedding_call_Some_in_range (self : Embedding) (w : weights)
  (t : tensor Z) (r : tensor sc) (ix : list nat) :
  Embedding_call self w t = Some r ->
  Forall2 lt ix (shape t) ->
  (0 <= data t ix < Z.of_nat (input_dim self))%Z.
Proof.
  intros H Hix.
  destruct (Z_le_dec 0 (data t ix)) as [H0|H0];
    [destruct (Z_lt_dec (data t ix) (Z.of_nat (input_dim self))) as [H1|H1]|].
  - split; assumption.
  - rewrite (Embedding_call_out_of_range self w t ix Hix) in H by lia.
    discriminate.
  - rewrite (Embedding_call_out_of_range self w t ix Hix) in H by lia.
    discriminate.
Qed.

Lemma TokenAndPositionEmbedding_call_batch_valid
  (maxlen vocab_size embed_dim : nat) (w : weights) (x : tensor Z)
  (pre : list nat) (L : nat) :
  shape x = pre ++ [L] ->
  L <= maxlen ->
  (forall ix, Forall2 lt ix (shape x) ->
              (0 <= data x ix < Z.of_nat vocab_size)%Z) ->
  exists out,
    TokenAndPositionEmbedding_call
      (TokenAndPositionEmbedding_init maxlen vocab_size embed_dim) w x
    = Some out
    /\ shape out = pre ++ [L; embed_dim]
    /\ forall p i j, Forall2 lt p pre -> i < L -> j < embed_dim ->
         data out (p ++ [i; j])
         = sadd (w "token_emb/embeddings"
                   [Z.to_nat (data x (p ++ [i])); j])
                (w "pos_emb/embeddings" [i; j]).
Proof.
  intros Hx HL Htok.
  unfold TokenAndPositionEmbedding_call, TokenAndPositionEmbedding_positions,
    tf_shape_last.
  rewrite (f_equal last_axis Hx), last_axis_app. cbn [bind].
  rewrite Embedding_call_in_range
    by (intros ix Hix; apply positions_in_range; assumption).
  cbn [bind].
  rewrite Embedding_call_in_range by exact Htok.
  cbn [bind]. unfold tf_add. cbn [shape].
  rewrite Hx, (proj1 (tf_range_positions L)).
  cbn [TokenAndPositionEmbedding_init token_emb pos_emb output_dim].
  rewrite <- app_assoc. cbn [app].
  rewrite broadcast_shape_prefix. cbn [bind].
  eexists. split; [reflexivity|]. split; [reflexivity|].
  intros p i j Hp Hi Hj. cbn [data].
  rewrite bindex_id
    by (apply Forall2_app; [exact Hp | repeat constructor; assumption]).
  rewrite bindex_rows by assumption.
  replace (p ++ [i; j]) with ((p ++ [i]) ++ [j])
    by (rewrite <- app_assoc; reflexivity).
  rewrite removelast_last, last_last. cbn [removelast last].
  rewrite (proj2 (tf_range_positions L)), Nat2Z.id. reflexivity.
Qed.

(** X1: on a batch of sequences of [L <= maxlen] ids of the vocabulary
    (any leading axes [pre]) [call] returns a tensor of shape
    [pre ++ [L; embed_dim]]; the entry [j] at position [i] of row [p] is the
    token embedding of that row's [i]-th id plus the position embedding of
    [i], the same for every row. *)
Theorem TokenAndPositionEmbedding_call_batch
  (maxlen vocab_size embed_dim : nat) (w : weights) (x : tensor Z)
  (pre : list nat) (L : nat) :
  shape x = pre ++ [L] ->
  L <= maxlen ->
  (forall ix, Forall2 lt ix (shape x) ->
              (0 <= data x ix < Z.of_nat vocab_size)%Z) ->
  exists out,
    TokenAndPositionEmbedding_call
      (TokenAndPositionEmbedding_init maxlen vocab_size embed_dim) w x
    = Some out
    /\ shape out = pre ++ [L; embed_dim]
    /\ forall p i j, Forall2 lt p pre -> i < L -> j < embed_dim ->
         data out (p ++ [i; j])
         = sadd (w "token_emb/embeddings"
                   [Z.to_nat (data x (p ++ [i])); j])
                (w "pos_emb/embeddings" [i; j]).
Proof. apply TokenAndPositionEmbedding_call_batch_valid. Qed.

(** X2: [call] returns exactly when its input has a last axis, of size at
    most [maxlen], and holds only ids in [[0, vocab_size)]; on a scalar, on
    a longer sequence or on any id outside the vocabulary it raises. *)
Theorem TokenAndPositionEmbedding_call_returns_iff
  (maxlen vocab_size embed_dim : nat) (w : weights) (x : tensor Z) :
  (exists out,
     TokenAndPositionEmbedding_call
       (TokenAndPositionEmbedding_init maxlen vocab_size embed_dim) w x
     = Some out)
  <-> (exists pre L,
         shape x = pre ++ [L]
         /\ L <= maxlen
         /\ forall ix, Forall2 lt ix (shape x) ->
                       (0 <= data x ix < Z.of_nat vocab_size)%Z).
Proof.
  split.
  - intros [out H]. unfold TokenAndPositionEmbedding_call in H.
    invert_bind H. unfold TokenAndPositionEmbedding_positions in E.
    invert_bind E. invert_Some E. invert_bind H. invert_bind H.
    exists (removelast (shape x)), r0.
    split; [apply last_axis_Some; exact E0|]. split.
    + destruct (le_lt_dec r0 maxlen) as [Hle|Hlt]; [exact Hle|].
      rewrite (Embedding_call_out_of_range _ _ _ [maxlen]) in E.
      * discriminate.
      * rewrite (proj1 (tf_range_positions r0)). repeat constructor. exact Hlt.
      * rewrite (proj2 (tf_range_positions r0)). cbn. lia.
    + intros ix Hix.
      apply (Embedding_call_Some_in_range _ _ _ _ ix E1 Hix).
  - intros [pre [L [Hx [HL Htok]]]].
    destruct (TokenAndPositionEmbedding_call_batch_valid
                maxlen vocab_size embed_dim w x pre L Hx HL Htok)
      as [out [E _]].
    exists out. exact E.
Qed.

(** X3: the empty sequence is accepted, whatever [maxlen] and
    [vocab_size]: [call] returns a tensor of shape [(0, embed_dim)] with no
    entry. *)
Theorem TokenAndPositionEmbedding_call_empty
  (maxlen vocab_size embed_dim : nat) (w : weights) (x : tensor Z) :
  shape x = [0] ->
  exists out,
    TokenAndPositionEmbedding_call
      (TokenAndPositionEmbedding_init maxlen vocab_size embed_dim) w x
    = Some out
    /\ shape out = [0; embed_dim]
    /\ to_list out = [].
Proof.
  intros Hx.
  destruct (TokenAndPositionEmbedding_call_valid
              maxlen vocab_size embed_dim w x 0 Hx (Nat.le_0_l _))
    as [out [E [Hs _]]].
  - intros i Hi. lia.
  - exists out. split; [exact E|]. split; [exact Hs|].
    unfold to_list. rewrite Hs. reflexivity.
Qed.

(** ** The transformer block on a sequence of another width *)




End MoreLayers.

Section MoreModels.

Context {K : Scalar}.

(** ** When the three models return *)

Lemma eval_args_two (theta : params) (rho : noises) (training : bool)
  (env : string -> option value) (p : list nat) (k : nat) (a b : ktensor)
  (vs : list value) :
  eval_args theta rho training env p k [a; b] = Some vs ->
  exists va vb,
    eval theta rho training env (k :: p) a = Some va
    /\ eval theta rho training env (S k :: p) b = Some vb
    /\ vs = [va; vb].
Proof.
  cbn [eval_args]. intros H.
  destruct (eval theta rho training env (k :: p) a) as [va|];
    [cbn [bind] in H|discriminate].
  destruct (eval theta rho training env (S k :: p) b) as [vb|];
    [cbn [bind] in H|discriminate].
  invert_Some H. exists va, vb. repeat split.
Qed.

Lemma Dense_shape_Some (d : Dense) (sh r : list nat) :
  Dense_shape d sh = Some r -> r = removelast sh ++ [units d].
Proof.
  unfold Dense_shape. intros H. invert_bind H. invert_Some H. reflexivity.
Qed.

(** What the head returns has the shape of what it is given, the last
    axis replaced by [output_dim]. *)
Lemma eval_spec_head_Some (theta : params) (rho : noises) (training : bool)
  (env : string -> option value) (p : list nat) (hidden output_dim : nat)
  (x : ktensor) (v : value) :
  eval theta rho training env p (spec_head hidden output_dim x) = Some v ->
  exists q vx,
    eval theta rho training env q x = Some vx
    /\ vshape v = removelast (vshape vx) ++ [output_dim].
Proof.
  unfold spec_head. intros H.
  apply eval_Call1_Some in H.
  destruct H as [v3 [s3 [H3 [_ [_ [_ S4]]]]]].
  apply eval_Call1_Some in H3.
  destruct H3 as [v2 [s2 [H2 [_ [_ [_ S3]]]]]].
  apply eval_Call1_Some in H2.
  destruct H2 as [v1 [s1 [H1 [_ [_ [_ S2]]]]]].
  apply eval_Call1_Some in H1.
  destruct H1 as [vx [s0 [H0 [_ [_ [_ S1]]]]]].
  exists (0 :: 0 :: 0 :: 0 :: p), vx. split; [exact H0|].
  cbn [layer_shape] in S1, S2, S3, S4.
  apply Dense_shape_Some in S4. apply Dense_shape_Some in S2.
  inversion S1 as [E1]. inversion S3 as [E3].
  rewrite S4, <- E3, S2, <- E1. cbn [units].
  rewrite removelast_last. reflexivity.
Qed.

(** What the pooled sequence returns is a vector, and every id it was given
    was found in the table. *)
Lemma eval_pooled_sequence_Some (theta : params) (rho : noises)
  (training : bool) (env : string -> option value) (p : list nat)
  (max_case_length vocab_size embed_dim num_heads ff_dim : nat)
  (tag : string) (v : value) :
  eval theta rho training env p
    (spec_pooled_sequence max_case_length vocab_size embed_dim num_heads
       ff_dim (Input tag [max_case_length])) = Some v ->
  (exists f, vshape v = [f])
  /\ forall x, env tag = Some (VInt x) ->
               shape x = [max_case_length] ->
               forall i, i < max_case_length ->
                         id_accepted vocab_size (data x [i]) = true.
Proof.
  unfold spec_pooled_sequence. intros H.
  apply eval_Call1_Some in H.
  destruct H as [vb [sb [Hb [_ [_ [_ Sg]]]]]].
  split.
  - cbn [layer_shape] in Sg. unfold GlobalAveragePooling1D_shape in Sg.
    destruct (vshape vb) as [|a [|b [|c l]]]; try discriminate.
    inversion Sg as [E]. exists b. reflexivity.
  - intros x Henv Hx i Hi.
    apply eval_Call1_Some in Hb.
    destruct Hb as [ve [se [He _]]].
    apply eval_Call1_Some in He.
    destruct He as [vi [si [Hin [_ [_ [Hl _]]]]]].
    cbn [eval] in Hin. rewrite Henv in Hin. cbn [bind] in Hin.
    rewrite (placeholder_same [max_case_length] (VInt x) Hx) in Hin.
    invert_Some Hin. cbn [layer_call] in Hl.
    invert_bind Hl. invert_bind Hl.
    assert (Hix : Forall2 lt [i] (shape (tmap float32_of_Z x))).
    { cbn [tmap shape]. rewrite Hx. repeat constructor. exact Hi. }
    destruct (as_ids_VInt_Some _ _ [i] E Hix) as [-> Hint].
    cbn [tmap data] in Hint.
    unfold TokenAndPositionEmbedding_call in E0.
    invert_bind E0. invert_bind E0. invert_bind E0.
    pose proof (Embedding_call_Some_in_range _ _ _ _ [i] E3 Hix) as Hr.
    cbn [tmap data TokenAndPositionEmbedding_init token_emb input_dim] in Hr.
    apply id_accepted_intro; assumption.
Qed.

Lemma feed_one (tag : string) (sh : list nat) (v : value) :
  feed [Input tag sh] [v]
  = Some (fun s => if String.eqb s tag then Some v else None).
Proof. reflexivity. Qed.

Lemma next_activity_model_returns
  (max_case_length vocab_size output_dim embed_dim num_heads ff_dim : nat)
  (theta : params) (rho : noises) (x : tensor Z) (training : bool) :
  0 < embed_dim ->
  shape x = [max_case_length] ->
  (exists out,
     Model_call
       (get_next_activity_model
          max_case_length vocab_size output_dim embed_dim num_heads ff_dim)
       theta rho [VInt x] training
     = Some (VReal out)
     /\ shape out = [output_dim])
  <-> (forall i, i < max_case_length ->
                 id_accepted vocab_size (data x [i]) = true).
Proof.
  intros He Hx. split.
  - intros [out [H _]]. unfold Model_call in H.
    rewrite get_next_activity_model_graph in H.
    cbn [get_next_activity_model inputs feed bind] in H.
    apply eval_spec_head_Some in H. destruct H as [q [vx [H _]]].
    apply eval_pooled_sequence_Some in H. destruct H as [_ H].
    apply H; [reflexivity | exact Hx].
  - intros Htok. apply get_next_activity_model_runs; assumption.
Qed.

(** X5: for positive [embed_dim] and [max_case_length] (an embedding table
    has at least one row and one column), on a sequence of
    [max_case_length] ids the next-activity model, in training or not,
    returns (a vector of [output_dim] entries) exactly when every id, as it
    reaches the lookup through the float32 placeholder, is in
    [[0, vocab_size)]; for ids below 2^24 in absolute value, which float32
    holds exactly, that is when every id is.  The position lookup cannot
    fail there.  The lookup is the one that checks its bounds. *)
Theorem next_activity_model_returns_iff
  (max_case_length vocab_size output_dim embed_dim num_heads ff_dim : nat)
  (theta : params) (rho : noises) (x : tensor Z) (training : bool) :
  0 < embed_dim ->
  0 < max_case_length ->
  shape x = [max_case_length] ->
  let returns :=
    exists out,
      Model_call
        (get_next_activity_model
           max_case_length vocab_size output_dim embed_dim num_heads ff_dim)
        theta rho [VInt x] training
      = Some (VReal out)
      /\ shape out = [output_dim] in
  (returns
   <-> (forall i, i < max_case_length ->
                  id_accepted vocab_size (data x [i]) = true))
  /\ ((forall i, i < max_case_length -> (Z.abs (data x [i]) < 2 ^ 24)%Z) ->
      (returns
       <-> (forall i, i < max_case_length ->
                      (0 <= data x [i] < Z.of_nat vocab_size)%Z))).
Proof.
  intros He _ Hx returns.
  pose proof (next_activity_model_returns
                max_case_length vocab_size output_dim embed_dim num_heads
                ff_dim theta rho x training He Hx) as Hiff.
  fold returns in Hiff. split; [exact Hiff|].
  intros Hsmall. rewrite Hiff. split; intros H i Hi.
  - specialize (H i Hi).
    rewrite id_accepted_small in H by (apply Hsmall; exact Hi).
    unfold in_table in H. apply andb_true_iff in H. destruct H as [H1 H2].
    apply Z.leb_le in H1. apply Z.ltb_lt in H2. lia.
  - rewrite id_accepted_small by (apply Hsmall; exact Hi).
    specialize (H i Hi). unfold in_table. apply andb_true_iff.
    split; [apply Z.leb_le | apply Z.ltb_lt]; lia.
Qed.

(** The placeholder of the time features: what it accepts. *)

Lemma runs_Input_squeezed (theta : params) (rho : noises) (training : bool)
  (env : string -> option value) (tag : string) (t : tensor sc) :
  env tag = Some (VReal t) -> shape t = [3; 1] ->
  runs_to theta rho training env (Input tag [3]) [3].
Proof.
  intros Henv Ht. split; [reflexivity|]. intros p. cbn [eval].
  rewrite Henv. cbn [bind].
  unfold placeholder, input_compatible, conform. cbn [vshape].
  rewrite Ht. cbn. exists (tsqueeze t).
  split; [reflexivity|]. cbn [tsqueeze shape]. rewrite Ht. reflexivity.
Qed.

Lemma placeholder_three (t : tensor sc) (v : value) :
  placeholder [3] (VReal t) = Some v ->
  vshape v = [3] ->
  shape t = [3] \/ shape t = [3; 1].
Proof.
  unfold placeholder. destruct (input_compatible _ _); [|discriminate].
  intros H Hv. invert_Some H. cbn [vshape] in Hv. unfold conform in Hv.
  destruct (shape t) as [|a [|b [|c l]]] eqn:Et;
    cbn [List.length last Nat.eqb Nat.add andb] in Hv.
  - rewrite Et in Hv. discriminate.
  - rewrite Et in Hv. left. exact Hv.
  - destruct (Nat.eqb_spec b 1) as [->|Hb].
    + cbn [tsqueeze shape] in Hv. rewrite Et in Hv. cbn in Hv.
      inversion Hv. right. reflexivity.
    + rewrite Et in Hv. discriminate.
  - rewrite Et in Hv. discriminate.
Qed.

(** The graph of the two time models returns exactly on ids the lookup
    finds and features of shape (3,) or (3, 1). *)
Lemma time_graph_returns
  (max_case_length vocab_size output_dim embed_dim num_heads ff_dim : nat)
  (theta : params) (rho : noises) (x : tensor Z) (t : tensor sc)
  (training : bool) (env : string -> option value) :
  0 < embed_dim ->
  env "inputs" = Some (VInt x) ->
  env "time_inputs" = Some (VReal t) ->
  shape x = [max_case_length] ->
  (exists out,
     eval theta rho training env []
       (spec_head 128 output_dim
          (spec_with_time_features
             (spec_pooled_sequence max_case_length vocab_size embed_dim
                num_heads ff_dim (Input "inputs" [max_case_length]))
             (Input "time_inputs" [3])))
     = Some (VReal out)
     /\ shape out = [output_dim])
  <-> ((forall i, i < max_case_length ->
                  id_accepted vocab_size (data x [i]) = true)
       /\ (shape t = [3] \/ shape t = [3; 1])).
Proof.
  intros He Hin Htin Hx. split.
  - intros [out [H _]].
    apply eval_spec_head_Some in H. destruct H as [q [vx [H _]]].
    unfold spec_with_time_features in H.
    apply eval_Call_Some in H.
    destruct H as [vs [built [Ea [_ [_ [_ Sc]]]]]].
    apply eval_args_two in Ea. destruct Ea as [va [vb [E [E0 ->]]]].
    apply eval_pooled_sequence_Some in E. destruct E as [[f Hf] Hids].
    split; [apply Hids; assumption|].
    apply eval_Call1_Some in E0.
    destruct E0 as [vt [st [Hvt [Hst [Hb [_ Sd]]]]]].
    cbn [infer] in Hst. invert_Some Hst.
    cbn [eval] in Hvt. rewrite Htin in Hvt. cbn [bind] in Hvt.
    apply (placeholder_three t vt Hvt).
    cbn [layer_shape] in Sd. apply Dense_shape_Some in Sd.
    cbn [map layer_shape] in Sc. unfold Concatenate_shape in Sc.
    destruct (forallb _ _) eqn:Ef; [|discriminate]. clear Sc.
    cbn [forallb] in Ef. rewrite Hf, Sd in Ef. rewrite removelast_last in Ef.
    cbn [removelast] in Ef.
    apply andb_true_iff in Ef. destruct Ef as [_ Ef].
    apply andb_true_iff in Ef. destruct Ef as [Ef _].
    apply andb_true_iff in Ef. destruct Ef as [_ Ef].
    apply shape_eqb_eq in Ef.
    cbn [built_for] in Hb.
    destruct (vshape vt) as [|a [|b l]]; cbn in Ef, Hb |- *;
      try discriminate.
    destruct a as [|[|[|[|a]]]]; try discriminate. reflexivity.
  - intros [Htok Ht].
    apply (time_model_graph_runs
             max_case_length vocab_size output_dim embed_dim num_heads
             ff_dim theta rho x training env He Hin Hx Htok).
    destruct Ht as [Ht|Ht].
    + apply (runs_Input theta rho training env "time_inputs" t [3] Htin Ht).
    + apply (runs_Input_squeezed theta rho training env "time_inputs" t
               Htin Ht).
Qed.

Lemma time_models_return
  (max_case_length vocab_size output_dim embed_dim num_heads ff_dim : nat)
  (theta : params) (rho : noises) (x : tensor Z) (t : tensor sc)
  (training : bool) :
  0 < embed_dim ->
  shape x = [max_case_length] ->
  let accepted :=
    (forall i, i < max_case_length ->
               id_accepted vocab_size (data x [i]) = true)
    /\ (shape t = [3] \/ shape t = [3; 1]) in
  ((exists out,
      Model_call
        (get_next_time_model
           max_case_length vocab_size output_dim embed_dim num_heads ff_dim)
        theta rho [VInt x; VReal t] training
      = Some (VReal out)
      /\ shape out = [output_dim])
   <-> accepted)
  /\ ((exists out,
         Model_call
           (get_remaining_time_model
              max_case_length vocab_size output_dim embed_dim num_heads
              ff_dim)
           theta rho [VInt x; VReal t] training
         = Some (VReal out)
         /\ shape out = [output_dim])
      <-> accepted).
Proof.
  intros He Hx accepted. split.
  - unfold Model_call. rewrite get_next_time_model_graph.
    cbn [get_next_time_model inputs feed bind].
    apply time_graph_returns; [exact He | reflexivity | reflexivity | exact Hx].
  - unfold Model_call. rewrite get_remaining_time_model_graph.
    cbn [get_remaining_time_model inputs feed bind].
    apply time_graph_returns; [exact He | reflexivity | reflexivity | exact Hx].
Qed.

(** X6: for positive [embed_dim] and [max_case_length], on a sequence of
    [max_case_length] ids and three numeric features each of the two time
    models, in training or not, returns (a vector of [output_dim] entries)
    exactly when every id, as it reaches the lookup through the float32
    placeholder, is in [[0, vocab_size)].  The lookup is the one that
    checks its bounds. *)
Theorem time_models_return_iff
  (max_case_length vocab_size output_dim embed_dim num_heads ff_dim : nat)
  (theta : params) (rho : noises) (x : tensor Z) (t : tensor sc)
  (training : bool) :
  0 < embed_dim ->
  0 < max_case_length ->
  shape x = [max_case_length] ->
  shape t = [3] ->
  let valid :=
    forall i, i < max_case_length ->
              id_accepted vocab_size (data x [i]) = true in
  ((exists out,
      Model_call
        (get_next_time_model
           max_case_length vocab_size output_dim embed_dim num_heads ff_dim)
        theta rho [VInt x; VReal t] training
      = Some (VReal out)
      /\ shape out = [output_dim])
   <-> valid)
  /\ ((exists out,
         Model_call
           (get_remaining_time_model
              max_case_length vocab_size output_dim embed_dim num_heads
              ff_dim)
           theta rho [VInt x; VReal t] training
         = Some (VReal out)
         /\ shape out = [output_dim])
      <-> valid).
Proof.
  intros He _ Hx Ht valid.
  destruct (time_models_return
              max_case_length vocab_size output_dim embed_dim num_heads
              ff_dim theta rho x t training He Hx) as [H1 H2].
  split.
  - rewrite H1. unfold valid. tauto.
  - rewrite H2. unfold valid. tauto.
Qed.

(** X10: for positive [embed_dim] and [max_case_length] and a sequence of
    [max_case_length] ids that the lookup finds, the two time models return
    exactly when the numeric input has shape (3,) or (3, 1), whose last
    axis the model squeezes; on features of any other shape they raise. *)
Theorem time_models_features_shape
  (max_case_length vocab_size output_dim embed_dim num_heads ff_dim : nat)
  (theta : params) (rho : noises) (x : tensor Z) (t : tensor sc)
  (training : bool) :
  0 < embed_dim ->
  0 < max_case_length ->
  shape x = [max_case_length] ->
  (forall i, i < max_case_length ->
             id_accepted vocab_size (data x [i]) = true) ->
  ((exists out,
      Model_call
        (get_next_time_model
           max_case_length vocab_size output_dim embed_dim num_heads ff_dim)
        theta rho [VInt x; VReal t] training
      = Some (VReal out)
      /\ shape out = [output_dim])
   <-> (shape t = [3] \/ shape t = [3; 1]))
  /\ ((exists out,
         Model_call
           (get_remaining_time_model
              max_case_length vocab_size output_dim embed_dim num_heads
              ff_dim)
           theta rho [VInt x; VReal t] training
         = Some (VReal out)
         /\ shape out = [output_dim])
      <-> (shape t = [3] \/ shape t = [3; 1])).
Proof.
  intros He _ Hx Htok.
  destruct (time_models_return
              max_case_length vocab_size output_dim embed_dim num_heads
              ff_dim theta rho x t training He Hx) as [H1 H2].
  split.
  - rewrite H1. tauto.
  - rewrite H2. tauto.
Qed.

(** ** What the three models never do *)

Lemma eval_head_of_pooled_shape (theta : params) (rho : noises)
  (training : bool) (env : string -> option value) (p : list nat)
  (hidden output_dim max_case_length vocab_size embed_dim num_heads
   ff_dim : nat) (tag : string) (v : value) :
  eval theta rho training env p
    (spec_head hidden output_dim
       (spec_pooled_sequence max_case_length vocab_size embed_dim num_heads
          ff_dim (Input tag [max_case_length])))
  = Some v ->
  vshape v = [output_dim].
Proof.
  intros H. apply eval_spec_head_Some in H. destruct H as [q [vx [H Hs]]].
  apply eval_pooled_sequence_Some in H. destruct H as [[f Hf] _].
  rewrite Hs, Hf. reflexivity.
Qed.

Lemma eval_head_of_joined_shape (theta : params) (rho : noises)
  (training : bool) (env : string -> option value) (p : list nat)
  (hidden output_dim max_case_length vocab_size embed_dim num_heads
   ff_dim : nat) (tag : string) (b : ktensor) (v : value) :
  eval theta rho training env p
    (spec_head hidden output_dim
       (spec_with_time_features
          (spec_pooled_sequence max_case_length vocab_size embed_dim
             num_heads ff_dim (Input tag [max_case_length]))
          b))
  = Some v ->
  vshape v = [output_dim].
Proof.
  intros H. apply eval_spec_head_Some in H. destruct H as [q [vx [H Hs]]].
  unfold spec_with_time_features in H.
  apply eval_Call_Some in H.
  destruct H as [vs [built [Ea [_ [_ [_ Sc]]]]]].
  apply eval_args_two in Ea. destruct Ea as [va [vb [E [E0 ->]]]].
  apply eval_pooled_sequence_Some in E. destruct E as [[f Hf] _].
  cbn [map layer_shape] in Sc. unfold Concatenate_shape in Sc.
  destruct (forallb _ _); [|discriminate].
  rewrite Hf in Sc. cbn [removelast app] in Sc. inversion Sc as [E].
  rewrite Hs, <- E. reflexivity.
Qed.

(** X7: whatever values, however many and of whatever shape, are fed to a
    model of one of the three builders, with whatever variables and masks,
    the call raises or returns a tensor of shape [(output_dim,)]: no input
    makes a model return a result of another shape. *)
Theorem builders_never_another_shape
  (max_case_length vocab_size output_dim embed_dim num_heads ff_dim : nat)
  (theta : params) (rho : noises) (xs : list value) (training : bool) :
  let returns_output_dim (m : Model) :=
    match Model_call m theta rho xs training with
    | Some v => vshape v = [output_dim]
    | None => True
    end in
  returns_output_dim
    (get_next_activity_model
       max_case_length vocab_size output_dim embed_dim num_heads ff_dim)
  /\ returns_output_dim
       (get_next_time_model
          max_case_length vocab_size output_dim embed_dim num_heads ff_dim)
  /\ returns_output_dim
       (get_remaining_time_model
          max_case_length vocab_size output_dim embed_dim num_heads ff_dim).
Proof.
  intros returns_output_dim. unfold returns_output_dim, Model_call.
  split; [|split].
  - rewrite get_next_activity_model_graph.
    destruct (feed _ xs) as [env|]; [cbn [bind]|exact I].
    destruct (eval _ _ _ _ _ _) as [v|] eqn:E; [|exact I].
    eapply eval_head_of_pooled_shape. exact E.
  - rewrite get_next_time_model_graph.
    destruct (feed _ xs) as [env|]; [cbn [bind]|exact I].
    destruct (eval _ _ _ _ _ _) as [v|] eqn:E; [|exact I].
    eapply eval_head_of_joined_shape. exact E.
  - rewrite get_remaining_time_model_graph.
    destruct (feed _ xs) as [env|]; [cbn [bind]|exact I].
    destruct (eval _ _ _ _ _ _) as [v|] eqn:E; [|exact I].
    eapply eval_head_of_joined_shape. exact E.
Qed.

(** X8: the next-activity model takes one input and the two time models
    take two: called on any other number of values they raise; the time
    models cannot be run on the sequence alone. *)
Theorem builders_input_count
  (max_case_length vocab_size output_dim embed_dim num_heads ff_dim : nat)
  (theta : params) (rho : noises) (xs : list value) (training : bool) :
  (List.length xs <> 1 ->
   Model_call
     (get_next_activity_model
        max_case_length vocab_size output_dim embed_dim num_heads ff_dim)
     theta rho xs training = None)
  /\ (List.length xs <> 2 ->
      Model_call
        (get_next_time_model
           max_case_length vocab_size output_dim embed_dim num_heads ff_dim)
        theta rho xs training = None
      /\ Model_call
           (get_remaining_time_model
              max_case_length vocab_size output_dim embed_dim num_heads
              ff_dim)
           theta rho xs training = None).
Proof.
  split.
  - intros Hn. destruct xs as [|v [|v' xs]]; cbn in Hn; try lia; reflexivity.
  - intros Hn.
    destruct xs as [|v [|v' [|v'' xs]]]; cbn in Hn; try lia;
      split; reflexivity.
Qed.

(** ** The shapes along the pipeline *)

(** X9: at construction the embedded sequence and the output of the
    transformer block have shape [(max_case_length, embed_dim)], the pooled
    sequence has [embed_dim] features, and in the two time models the
    concatenation that feeds the hidden layer has [embed_dim + 32]. *)
Theorem builders_pipeline_shapes
  (max_case_length vocab_size output_dim embed_dim num_heads ff_dim : nat) :
  let embedded :=
    Call (L_TokenAndPositionEmbedding
            (TokenAndPositionEmbedding_init
               max_case_length vocab_size embed_dim))
      [Input "inputs" [max_case_length]] in
  let encoded :=
    Call (L_TransformerBlock
            (TransformerBlock_init embed_dim num_heads ff_dim default_rate))
      [embedded] in
  let pooled := Call L_GlobalAveragePooling1D [encoded] in
  let joined :=
    Call L_Concatenate
      [pooled;
       Call (L_Dense {| units := 32; activation := Some relu |})
         [Input "time_inputs" [3]]] in
  (outputs (get_next_activity_model
              max_case_length vocab_size output_dim embed_dim num_heads
              ff_dim)
   = spec_head 64 output_dim pooled
   /\ outputs (get_next_time_model
                 max_case_length vocab_size output_dim embed_dim num_heads
                 ff_dim)
      = spec_head 128 output_dim joined
   /\ outputs (get_remaining_time_model
                 max_case_length vocab_size output_dim embed_dim num_heads
                 ff_dim)
      = spec_head 128 output_dim joined)
  /\ infer embedded = Some [max_case_length; embed_dim]
  /\ infer encoded = Some [max_case_length; embed_dim]
  /\ infer pooled = Some [embed_dim]
  /\ infer joined = Some [embed_dim + 32].
Proof.
  intros embedded encoded pooled joined.
  assert (He : infer embedded = Some [max_case_length; embed_dim]).
  { unfold embedded. cbn [infer bind layer_shape].
    apply TokenAndPositionEmbedding_shape_sequence. }
  assert (Hb : infer encoded = Some [max_case_length; embed_dim]).
  { unfold encoded. rewrite infer_Call. cbn [infer_args]. rewrite He.
    cbn [bind layer_shape]. apply TransformerBlock_shape_sequence. }
  assert (Hp : infer pooled = Some [embed_dim]).
  { unfold pooled. rewrite infer_Call. cbn [infer_args]. rewrite Hb.
    reflexivity. }
  split; [repeat split|]. split; [exact He|]. split; [exact Hb|].
  split; [exact Hp|].
  apply (infer_with_time_features embed_dim 3 pooled
           (Input "time_inputs" [3]) Hp eq_refl).
Qed.

End MoreModels.

(** ** The theorems at concrete inputs *)


(** With [output_dim = 2] the two time models have output width 2, not 1,
    at construction and when run. *)
Lemma next_time_model_output_width_2 :
  Model_output_shape (get_next_time_model 10 50 2 36 4 64) <> Some [1]
  /\ Model_output_shape (get_next_time_model 10 50 2 36 4 64) = Some [2]
  /\ Model_output_shape (get_remaining_time_model 10 50 2 36 4 64) = Some [2]
  /\ option_map vshape
       (Model_call (get_next_time_model 10 50 2 36 4 64)
          index_sum_params keep_all
          [VInt ten_tokens; VReal three_features] false)
     = Some [2]
  /\ option_map vshape
       (Model_call (get_remaining_time_model 10 50 2 36 4 64)
          index_sum_params keep_all
          [VInt ten_tokens; VReal three_features] false)
     = Some [2].
Proof.
  split; [vm_compute; discriminate|].
  repeat split; vm_compute; reflexivity.
Qed.

Lemma TokenAndPositionEmbedding_call_sum_witness :
  exists out,
    TokenAndPositionEmbedding_call
      (TokenAndPositionEmbedding_init 4 3 2) index_sum_weights tokens_2_0_1
    = Some out
    /\ shape out = [3; 2]
    /\ forall i j, i < 3 -> j < 2 ->
         data out [i; j]
         = sadd (index_sum_weights "token_emb/embeddings"
                   [Z.to_nat (data tokens_2_0_1 [i]); j])
                (index_sum_weights "pos_emb/embeddings" [i; j]).
Proof.
  apply (TokenAndPositionEmbedding_call_sum
           4 3 2 index_sum_weights tokens_2_0_1 3).
  - reflexivity.
  - lia.
  - intros i Hi. destruct i as [|[|[|i]]]; simpl; lia.
Defined.



Lemma next_activity_model_example_witness :
  Model_output_shape (get_next_activity_model 10 50 5 36 4 64) = Some [5]
  /\ exists out,
       Model_call (get_next_activity_model 10 50 5 36 4 64)
         index_sum_params drop_all [VInt ten_tokens] true
       = Some (VReal out)
       /\ shape out = [5]
       /\ List.length (to_list out) = 5.
Proof.
  apply (next_activity_model_example
           index_sum_params drop_all ten_tokens true).
  - reflexivity.
  - intros i Hi.
    do 10 (destruct i as [|i]; [simpl; lia|]). lia.
Defined.

Lemma TokenAndPositionEmbedding_call_batch_witness :
  exists out,
    TokenAndPositionEmbedding_call
      (TokenAndPositionEmbedding_init 3 4 2) index_sum_weights token_batch
    = Some out
    /\ shape out = [2; 3; 2]
    /\ forall p i j, Forall2 lt p [2] -> i < 3 -> j < 2 ->
         data out (p ++ [i; j])
         = sadd (index_sum_weights "token_emb/embeddings"
                   [Z.to_nat (data token_batch (p ++ [i])); j])
                (index_sum_weights "pos_emb/embeddings" [i; j]).
Proof.
  apply (TokenAndPositionEmbedding_call_batch
           3 4 2 index_sum_weights token_batch [2] 3).
  - reflexivity.
  - lia.
  - intros ix Hix. inversion Hix as [|a d ix' sh' Ha Hrest]; subst.
    inversion Hrest as [|b d' ix'' sh'' Hb Hnil]; subst.
    inversion Hnil; subst. cbn. lia.
Defined.

Lemma TokenAndPositionEmbedding_call_empty_witness :
  exists out,
    TokenAndPositionEmbedding_call
      (TokenAndPositionEmbedding_init 4 3 2) index_sum_weights no_tokens
    = Some out
    /\ shape out = [0; 2]
    /\ to_list out = [].
Proof.
  apply (TokenAndPositionEmbedding_call_empty
           4 3 2 index_sum_weights no_tokens).
  reflexivity.
Defined.


Lemma next_activity_model_returns_iff_witness :
  exists out,
    Model_call (get_next_activity_model 10 50 5 36 4 64)
      index_sum_params keep_all [VInt ten_tokens] false
    = Some (VReal out)
    /\ shape out = [5].
Proof.
  apply (proj2 (proj1 (next_activity_model_returns_iff
                         10 50 5 36 4 64 index_sum_params keep_all
                         ten_tokens false ltac:(lia) ltac:(lia) eq_refl))).
  intros i Hi. do 10 (destruct i as [|i]; [reflexivity|]). lia.
Defined.

Lemma time_models_return_iff_witness :
  exists out,
    Model_call (get_remaining_time_model 10 50 1 36 4 64)
      index_sum_params keep_all [VInt ten_tokens; VReal three_features] true
    = Some (VReal out)
    /\ shape out = [1].
Proof.
  apply (proj2 (proj2 (time_models_return_iff
                         10 50 1 36 4 64 index_sum_params keep_all
                         ten_tokens three_features true
                         ltac:(lia) ltac:(lia) eq_refl eq_refl))).
  intros i Hi. do 10 (destruct i as [|i]; [reflexivity|]). lia.
Defined.

Lemma builders_input_count_witness :
  Model_call (get_next_time_model 10 50 1 36 4 64)
    index_sum_params keep_all [VInt ten_tokens] false
  = None.
Proof.
  apply (proj2 (builders_input_count
                  10 50 1 36 4 64 index_sum_params keep_all
                  [VInt ten_tokens] false)).
  simpl. lia.
Defined.

Lemma time_models_features_shape_witness :
  (exists out,
     Model_call (get_next_time_model 10 50 1 36 4 64)
       index_sum_params keep_all
       [VInt ten_tokens; VReal three_features_column] false
     = Some (VReal out)
     /\ shape out = [1])
  /\ ~ (exists out,
          Model_call (get_next_time_model 10 50 1 36 4 64)
            index_sum_params keep_all
            [VInt ten_tokens; VReal two_by_three] false
          = Some (VReal out)
          /\ shape out = [1]).
Proof.
  assert (Hids : forall i, i < 10 ->
                           id_accepted 50 (data ten_tokens [i]) = true).
  { intros i Hi. do 10 (destruct i as [|i]; [reflexivity|]). lia. }
  split.
  - apply (proj2 (proj1 (time_models_features_shape
                           10 50 1 36 4 64 index_sum_params keep_all
                           ten_tokens three_features_column false
                           ltac:(lia) ltac:(lia) eq_refl Hids))).
    right. reflexivity.
  - intros H.
    apply (proj1 (proj1 (time_models_features_shape
                           10 50 1 36 4 64 index_sum_params keep_all
                           ten_tokens two_by_three false
                           ltac:(lia) ltac:(lia) eq_refl Hids))) in H.
    destruct H as [H|H]; discriminate.
Defined.
